(** * ses-smtpd-relay: the SMTP-to-SES transaction bridge of [main.go]

    A shallow embedding of the relay's session callbacks ([Mail], [Rcpt],
    [Data], [Reset], ...), of the startup code ([makeSesClient], [main]) and
    of the two [io] helpers [Data] is built on ([io.LimitReader] and
    [io.ReadAll]), followed by the properties of the transaction bridge.

    Conventions.
    - A Go [int] is a [Z]; [len] is Go's builtin.
    - A Go [error] value is an [option error]: [None] is [nil].
    - A [*string] is an [option string]: [None] is the nil pointer.
    - A [[]byte] that may be nil is an [option (list byte)].
    - The receiver [s *Session] is passed in and returned; the package-level
      counters, the process log and the requests received by the SES API are
      the fields of [World], threaded the same way. *)

From Stdlib Require Import ZArith Lia Strings.Byte.
From stdpp Require Import gmap strings list.

Local Open Scope string_scope.
Local Open Scope list_scope.
Local Open Scope Z_scope.

(** ** Go basics *)

(** Go's builtin [len] on a slice. *)
Definition len {A : Type} (l : list A) : Z := Z.of_nat (length l).

(** A non-nil Go [error]: [io.EOF], or any other error with its text. *)
Inductive error : Type :=
| EOF
| Err (msg : string).

(** The [(value, error)] result of a fallible Go call. *)
Inductive result (A : Type) : Type :=
| Ok (a : A)
| Failed (e : error).
Arguments Ok {A} a.
Arguments Failed {A} e.

(** ** [io.Reader], [io.LimitReader], [io.ReadAll] *)

(** [Read r n] is [r.Read(p)] with [len(p) = n]: the bytes stored in [p], the
    error returned with them, and the reader afterwards. *)
Class IoReader (T : Type) : Type :=
  Read : T -> Z -> list byte * option error * T.

(** The reader the protocol engine hands to [Data]: the message body still to
    come ([unread]), what the reader reports once the body is exhausted
    ([closing]: [EOF] after a complete body, another error when the
    connection fails), the most bytes one call hands out ([S burst]), and
    whether the closing error comes with the last bytes ([eager]) or in a
    call of its own. *)
Record BodyReader : Type := mkBodyReader {
  unread : list byte;
  closing : error;
  burst : nat;
  eager : bool
}.

Definition BodyReader_Read (r : BodyReader) (n : Z)
  : list byte * option error * BodyReader :=
  match unread r with
  | [] => ([], Some (closing r), r)
  | _ :: _ =>
      if n <=? 0 then ([], None, r)
      else
        let m := Z.to_nat (Z.min n (Z.of_nat (S (burst r)))) in
        let rest := drop m (unread r) in
        (take m (unread r),
         match rest with
         | [] => if eager r then Some (closing r) else None
         | _ :: _ => None
         end,
         mkBodyReader rest (closing r) (burst r) (eager r))
  end.

#[export] Instance BodyReader_IoReader : IoReader BodyReader := BodyReader_Read.

(** [io.LimitedReader]: [R] is the underlying reader, [N] the bytes remaining. *)
Record LimitedReader (T : Type) : Type := mkLimitedReader {
  R : T;
  N : Z
}.
Arguments mkLimitedReader {T} R N.
Arguments R {T} l.
Arguments N {T} l.

(** [func LimitReader(r Reader, n int64) Reader] *)
Definition io_LimitReader {T : Type} (r : T) (n : Z) : LimitedReader T :=
  mkLimitedReader r n.

(** [func (l *LimitedReader) Read(p []byte) (n int, err error)]:
<<
    if l.N <= 0 { return 0, EOF }
    if int64(len(p)) > l.N { p = p[0:l.N] }
    n, err = l.R.Read(p)
    l.N -= int64(n)
    return
>> *)
Definition LimitedReader_Read {T : Type} `{IoReader T} (l : LimitedReader T) (n : Z)
  : list byte * option error * LimitedReader T :=
  if N l <=? 0 then ([], Some EOF, l)
  else
    let n := if N l <? n then N l else n in
    let '(bs, err, r') := Read (R l) n in
    (bs, err, mkLimitedReader r' (N l - len bs)).

#[export] Instance LimitedReader_IoReader {T : Type} `{IoReader T}
  : IoReader (LimitedReader T) := LimitedReader_Read.

(** The capacity of the buffer after [append(b, 0)] on a full slice of
    capacity [c >= 256]. The runtime may round it up further; [io.ReadAll]
    only relies on it being larger than [c]. *)
Definition append_cap (c : Z) : Z := c + (c + 768) / 4.

(** The loop of [io.ReadAll]; [b] is the buffer filled so far, [c] its capacity:
<<
    for {
        n, err := r.Read(b[len(b):cap(b)])
        b = b[:len(b)+n]
        if err != nil {
            if err == EOF { err = nil }
            return b, err
        }
        if len(b) == cap(b) { b = append(b, 0)[:len(b)] }
    }
>>
    The loop runs as long as the reader returns no error, so the embedding
    bounds the number of rounds by [fuel]; [None] is a loop that is still
    running when the bound is reached. *)
Fixpoint ReadAll_loop {T : Type} `{IoReader T} (fuel : nat) (r : T) (b : list byte) (c : Z)
  : option (list byte * option error * T) :=
  match fuel with
  | O => None
  | S fuel =>
      let '(bs, err, r') := Read r (c - len b) in
      let b := b ++ bs in
      match err with
      | Some EOF => Some (b, None, r')
      | Some e => Some (b, Some e, r')
      | None =>
          let c := if len b =? c then append_cap c else c in
          ReadAll_loop fuel r' b c
      end
  end.

(** [func ReadAll(r Reader) ([]byte, error)], with [b := make([]byte, 0, 512)]. *)
Definition io_ReadAll {T : Type} `{IoReader T} (fuel : nat) (r : T)
  : option (list byte * option error * T) :=
  ReadAll_loop fuel r [] 512.

(** ** The packages the relay talks to *)

(** [github.com/emersion/go-smtp] *)
Module smtp.

(** [type SMTPError struct]; an [EnhancedCode] is a [[3]int]. *)
Record SMTPError : Type := mkSMTPError {
  Code : Z;
  EnhancedCode : Z * Z * Z;
  Message : string
}.

(** [*smtp.Conn]: the connection a session belongs to. *)
Variant Conn : Type := mkConn (id : nat).

End smtp.

(** [github.com/aws/aws-sdk-go-v2/service/ses/types] *)
Module types.

(** [type RawMessage struct { Data []byte }] *)
Record RawMessage : Type := mkRawMessage {
  Data : option (list byte)
}.

End types.

(** [github.com/aws/aws-sdk-go-v2]: credentials and client configuration. *)
Module aws.

(** What [cfg.Credentials] can hold: the provider the default chain
    resolved (opaque, named by [chain]), [stscreds.NewAssumeRoleProvider]
    over an STS client that signs with [base], and
    [aws.NewCredentialsCache] around a provider. *)
Inductive CredentialsProvider : Type :=
| DefaultChain (chain : nat)
| AssumeRoleProvider (base : CredentialsProvider) (roleArn RoleSessionName : string)
| CredentialsCache (provider : CredentialsProvider).

(** [aws.Config], as far as the relay touches it. *)
Record Config : Type := mkConfig {
  Region : string;
  Credentials : CredentialsProvider
}.

(** [sts.GetCallerIdentityOutput], for an answer that carries both fields:
    [makeSesClient] dereferences [identity.Account] and [identity.Arn]
    without a nil check, and an answer lacking one is not modelled. *)
Record CallerIdentity : Type := mkCallerIdentity {
  Account : string;
  Arn : string
}.

End aws.

(** [github.com/aws/aws-sdk-go-v2/service/ses] *)
Module ses.

(** [type SendRawEmailInput struct], the fields the relay sets. *)
Record SendRawEmailInput : Type := mkSendRawEmailInput {
  ConfigurationSetName : option string;
  Source : option string;
  Destinations : list string;
  RawMessage : option types.RawMessage
}.

(** [*ses.Client]: the configuration it was built from and how the service
    answers its two operations. [SendRawEmail] is given the requests the
    service received before this one; [None] is a nil error. *)
Record Client : Type := mkClient {
  Options : aws.Config;
  SendRawEmail : list SendRawEmailInput -> SendRawEmailInput -> option error;
  DescribeConfigurationSet : string -> option error
}.

End ses.

(** ** Package-level state of [main.go] *)

(** The lines written with [log.Printf], by call site. *)
Inductive LogLine : Type :=
| LogSizeExceeded (size limit : Z)
| LogSesError (e : error)
| LogSending (sender : string) (to : list string) (configSetInfo : string)
| LogIdentityWarning (e : error)
| LogIdentity (account arn : string)
| LogHealthCheck (bind : string)
| LogConfigSetValidated (name : string).

(** The counters [emailSent], [emailError] (a vector indexed by the value of
    its [type] label) and [sesError], the process log, and the requests the
    SES API has received, oldest first. A counter holds the number of [Inc]
    calls made on it. *)
Record World : Type := mkWorld {
  emailSent : nat;
  emailError : gmap string nat;
  sesError : nat;
  logged : list LogLine;
  received : list ses.SendRawEmailInput
}.

(** The value of the child counter of [emailError] for a label value; a
    child that was never incremented reads 0. *)
Definition emailError_value (w : World) (type : string) : nat :=
  default 0%nat (emailError w !! type).

(** [emailSent.Inc()] *)
Definition emailSent_Inc (w : World) : World :=
  mkWorld (S (emailSent w)) (emailError w) (sesError w) (logged w) (received w).

(** [emailError.With(prometheus.Labels{type: ...}).Inc()] *)
Definition emailError_Inc (type : string) (w : World) : World :=
  mkWorld (emailSent w) (<[type := S (emailError_value w type)]> (emailError w))
          (sesError w) (logged w) (received w).

(** [sesError.Inc()] *)
Definition sesError_Inc (w : World) : World :=
  mkWorld (emailSent w) (emailError w) (S (sesError w)) (logged w) (received w).

(** [log.Printf(...)] *)
Definition log_Printf (l : LogLine) (w : World) : World :=
  mkWorld (emailSent w) (emailError w) (sesError w) (logged w ++ [l]) (received w).

(** [client.SendRawEmail(context.TODO(), input)]: one call on the client,
    recorded with its input, and the error it returns. How many requests
    the client puts on the wire for the call (its retries) is not modelled. *)
Definition ses_SendRawEmail (client : ses.Client) (input : ses.SendRawEmailInput) (w : World)
  : option error * World :=
  (ses.SendRawEmail client (received w) input,
   mkWorld (emailSent w) (emailError w) (sesError w) (logged w) (received w ++ [input])).

(** [SesSizeLimit = 40000000 // 40MB limit for SES v2 API] *)
Definition SesSizeLimit : Z := 40000000.
Definition DefaultAddr : string := ":2500".

(** ** Backend and Session *)

(** [type Backend struct] *)
Record Backend : Type := mkBackend {
  sesClient : ses.Client;
  configSetName : option string
}.

(** [type Session struct] *)
Record Session : Type := mkSession {
  backend : Backend;
  conn : smtp.Conn;
  from : string;
  recipients : list string;
  data : option (list byte)
}.

(** [func (b *Backend) NewSession(c *smtp.Conn) (smtp.Session, error)] *)
Definition NewSession (b : Backend) (c : smtp.Conn) : Session * option error :=
  (mkSession b c "" [] None, None).

(** [func (s *Session) AuthPlain(username, password string) error] *)
Definition AuthPlain (s : Session) (username password : string) : Session * option smtp.SMTPError :=
  (s, None).

(** [func (s *Session) Mail(from string, opts *smtp.MailOptions) error] *)
Definition Mail (s : Session) (sender : string) : Session * option smtp.SMTPError :=
  (mkSession (backend s) (conn s) sender (recipients s) (data s), None).

(** [func (s *Session) Rcpt(to string, opts *smtp.RcptOptions) error] *)
Definition Rcpt (s : Session) (to : string) : Session * option smtp.SMTPError :=
  (mkSession (backend s) (conn s) (from s) (recipients s ++ [to]) (data s), None).

(** What a call of [Data] leaves behind: the error returned ([None] is nil),
    the session, the reader and the package-level state. *)
Record DataResult : Type := mkDataResult {
  returned : option smtp.SMTPError;
  session : Session;
  reader : BodyReader;
  world : World
}.

(** [func (s *Session) Data(r io.Reader) error]. [io.ReadAll] is given one
    round per unread byte and one more for the closing call, which is as
    many as it can take on a [BodyReader]. *)
Definition Data (s : Session) (r : BodyReader) (w : World) : option DataResult :=
  if len (recipients s) =? 0 then
    let w := emailError_Inc "no valid recipients" w in
    Some (mkDataResult
            (Some (smtp.mkSMTPError 554 (5, 5, 1) "Error: no valid recipients"))
            s r w)
  else
    match io_ReadAll (S (length (unread r))) (io_LimitReader r (SesSizeLimit + 1)) with
    | None => None
    | Some (body, Some _, lr) =>
        let w := emailError_Inc "read error" w in
        Some (mkDataResult
                (Some (smtp.mkSMTPError 451 (4, 5, 1) "Temporary server error reading message"))
                s (R lr) w)
    | Some (body, None, lr) =>
        if SesSizeLimit <? len body then
          let w := emailError_Inc "minimum message size exceed" w in
          let w := log_Printf (LogSizeExceeded (len body) SesSizeLimit) w in
          Some (mkDataResult
                  (Some (smtp.mkSMTPError 554 (5, 5, 1) "Error: maximum message size exceeded"))
                  s (R lr) w)
        else
          let s := mkSession (backend s) (conn s) (from s) (recipients s) (Some body) in
          let input :=
            ses.mkSendRawEmailInput
              (configSetName (backend s))
              (Some (from s))
              (recipients s)
              (Some (types.mkRawMessage (data s))) in
          let '(err, w) := ses_SendRawEmail (sesClient (backend s)) input w in
          match err with
          | Some e =>
              let w := log_Printf (LogSesError e) w in
              let w := emailError_Inc "ses error" w in
              let w := sesError_Inc w in
              Some (mkDataResult
                      (Some (smtp.mkSMTPError 451 (4, 5, 1)
                               "Temporary server error. Please try again later"))
                      s (R lr) w)
          | None =>
              let configSetInfo :=
                match configSetName (backend s) with
                | Some name => "config set: " +:+ name
                | None => "no config set"
                end in
              let w := log_Printf (LogSending (from s) (recipients s) configSetInfo) w in
              let w := emailSent_Inc w in
              Some (mkDataResult None s (R lr) w)
          end
    end.

(** [func (s *Session) Reset()] *)
Definition Reset (s : Session) : Session :=
  mkSession (backend s) (conn s) "" [] None.

(** [func (s *Session) Logout() error] *)
Definition Logout (s : Session) : Session * option smtp.SMTPError :=
  (s, None).

(** ** The protocol engine's view of a session *)

(** One callback invocation by the protocol engine on a connection's session. *)
Inductive Command : Type :=
| CmdAuthPlain (username password : string)
| CmdMail (sender : string)
| CmdRcpt (to : string)
| CmdData (r : BodyReader)
| CmdReset
| CmdLogout.

(** The callback's effect on the session and the package-level state, and the
    error it hands back to the engine ([Reset] has no return value: nil). *)
Definition exec (c : Command) (s : Session) (w : World)
  : option (option smtp.SMTPError * Session * World) :=
  match c with
  | CmdAuthPlain u p => let '(s, e) := AuthPlain s u p in Some (e, s, w)
  | CmdMail a => let '(s, e) := Mail s a in Some (e, s, w)
  | CmdRcpt a => let '(s, e) := Rcpt s a in Some (e, s, w)
  | CmdData r =>
      match Data s r w with
      | Some d => Some (returned d, session d, world d)
      | None => None
      end
  | CmdReset => Some (None, Reset s, w)
  | CmdLogout => let '(s, e) := Logout s in Some (e, s, w)
  end.

(** A sequence of callbacks on one session, with the errors handed back. *)
Fixpoint run (cs : list Command) (s : Session) (w : World)
  : option (list (option smtp.SMTPError) * Session * World) :=
  match cs with
  | [] => Some ([], s, w)
  | c :: cs =>
      match exec c s w with
      | None => None
      | Some (e, s, w) =>
          match run cs s w with
          | None => None
          | Some (es, s, w) => Some (e :: es, s, w)
          end
      end
  end.

(** ** Startup *)

(** [func validateConfigurationSet(ctx, sesClient, configSetName) error] *)
Definition validateConfigurationSet (sesClient : ses.Client) (configSetName : string)
  : option error :=
  ses.DescribeConfigurationSet sesClient configSetName.

(** The command line: the flags of [main] and the positional arguments. *)
Record Flags : Type := mkFlags {
  enablePrometheus : bool;
  prometheusBind : string;
  showVersion : bool;
  configurationSetName : string;
  enableHealthCheck : bool;
  healthCheckBind : string;
  args : list string
}.

(** The calls of [log.Fatalf] in [main]. *)
Variant Fatal : Type :=
| FatalCreatingSession (e : error)
| FatalConfigurationSet (name : string) (e : error)
| FatalUsage.

(** What [main] has started when it reaches its [select]: the SMTP server
    with its settings, and the addresses of the optional HTTP servers. *)
Record Running : Type := mkRunning {
  server_Backend : Backend;
  server_Addr : string;
  server_Domain : string;
  server_AllowInsecureAuth : bool;
  healthCheck : option string;
  metrics : option string
}.

(** How [main] leaves startup. *)
Variant Startup : Type :=
| ShowedVersion
| Died (f : Fatal)
| Listening (r : Running).

Section Startup.

(** The process environment, what [config.LoadDefaultConfig] and
    [sts.GetCallerIdentity] answer at startup, and how the SES service
    answers a client built from a given configuration. *)
Variable environ : gmap string string.
Variable config_LoadDefaultConfig : result aws.Config.
Variable sts_GetCallerIdentity : aws.Config -> result aws.CallerIdentity.
Variable service_SendRawEmail :
  aws.Config -> list ses.SendRawEmailInput -> ses.SendRawEmailInput -> option error.
Variable service_DescribeConfigurationSet : aws.Config -> string -> option error.

(** [ses.NewFromConfig(cfg)]: a client that calls the service with [cfg]. *)
Definition ses_NewFromConfig (cfg : aws.Config) : ses.Client :=
  ses.mkClient cfg (service_SendRawEmail cfg) (service_DescribeConfigurationSet cfg).

(** [os.Getenv]: the value of the variable, empty when it is not set. *)
Definition os_Getenv (key : string) : string := default "" (environ !! key).

(** [func makeSesClient(ctx context.Context)], returning the client or an error. *)
Definition makeSesClient (w : World) : result ses.Client * World :=
  match config_LoadDefaultConfig with
  | Failed e => (Failed e, w)
  | Ok cfg =>
      let roleArn := os_Getenv "AWS_ROLE_ARN" in
      let cfg :=
        if negb (String.eqb roleArn "") then
          let sessionName := os_Getenv "AWS_ROLE_SESSION_NAME" in
          let sessionName :=
            if String.eqb sessionName "" then "ses-smtpd-relay-session"
            else sessionName in
          let provider :=
            aws.AssumeRoleProvider (aws.Credentials cfg) roleArn sessionName in
          aws.mkConfig (aws.Region cfg) (aws.CredentialsCache provider)
        else cfg in
      let w :=
        match sts_GetCallerIdentity cfg with
        | Failed e => log_Printf (LogIdentityWarning e) w
        | Ok who =>
            log_Printf (LogIdentity (aws.Account who) (aws.Arn who)) w
        end in
      (Ok (ses_NewFromConfig cfg), w)
  end.

(** [flag.Arg(0)]: the first positional argument, empty when there is none. *)
Definition flag_Arg0 (f : Flags) : string :=
  match args f with
  | [] => ""
  | a :: _ => a
  end.

(** [func main()], up to the point where the servers are running. *)
Definition main (f : Flags) (w : World) : Startup * World :=
  if showVersion f then (ShowedVersion, w)
  else
    let w :=
      if enableHealthCheck f then log_Printf (LogHealthCheck (healthCheckBind f)) w
      else w in
    match makeSesClient w with
    | (Failed e, w) => (Died (FatalCreatingSession e), w)
    | (Ok sesClient, w) =>
        let checked : result World :=
          if negb (String.eqb (configurationSetName f) "") then
            match validateConfigurationSet sesClient (configurationSetName f) with
            | Some e => Failed e
            | None => Ok (log_Printf (LogConfigSetValidated (configurationSetName f)) w)
            end
          else Ok w in
        match checked with
        | Failed e => (Died (FatalConfigurationSet (configurationSetName f) e), w)
        | Ok w =>
            let addr : option string :=
              if negb (String.eqb (flag_Arg0 f) "") then Some (flag_Arg0 f)
              else if 1 <? len (args f) then None
              else Some DefaultAddr in
            match addr with
            | None => (Died FatalUsage, w)
            | Some addr =>
                let configSetPtr :=
                  if negb (String.eqb (configurationSetName f) "")
                  then Some (configurationSetName f)
                  else None in
                let backend := mkBackend sesClient configSetPtr in
                (Listening
                   (mkRunning backend addr "localhost" true
                      (if enableHealthCheck f then Some (healthCheckBind f) else None)
                      (if enablePrometheus f then Some (prometheusBind f) else None)),
                 w)
            end
        end
    end.

End Startup.

(** ** What [io.ReadAll(io.LimitReader(r, n))] returns on a [BodyReader] *)

(** The error [io.ReadAll] returns when its reader reports [e]: [io.EOF] is
    the normal end and becomes nil. *)
Definition ReadAll_err (e : error) : option error :=
  match e with
  | EOF => None
  | Err _ => Some e
  end.

(** The error of [io.ReadAll(io.LimitReader(r, n))]: the closing error is
    seen when the body ends before [n] bytes, or when it ends at byte [n]
    exactly and the reader reports it with the last bytes. *)
Definition limited_err (r : BodyReader) (n : Z) : option error :=
  if len (unread r) <? n then ReadAll_err (closing r)
  else if (len (unread r) =? n) && eager r && (0 <? n) then ReadAll_err (closing r)
  else None.

(** The reader [r] after [k] more bytes were taken from it. *)
Definition advance (k : nat) (r : BodyReader) : BodyReader :=
  mkBodyReader (drop k (unread r)) (closing r) (burst r) (eager r).

(** ** Reading the outcome of [Data] *)

(** The number of bytes [io.ReadAll(io.LimitReader(r, SesSizeLimit+1))] takes
    from [r]. *)
Definition taken (r : BodyReader) : nat :=
  Z.to_nat (Z.min (SesSizeLimit + 1) (len (unread r))).

(** The causes of failure and the value of the [type] label each is counted
    under in [emailError]. *)
Variant Cause : Type := NoRecipients | ReadError | SizeExceeded | SendError.

Definition label (c : Cause) : string :=
  match c with
  | NoRecipients => "no valid recipients"
  | ReadError => "read error"
  | SizeExceeded => "minimum message size exceed"
  | SendError => "ses error"
  end.

(** The outcome counters: [emailSent], and the child of [emailError] for
    each value of the [type] label. *)
Variant Tally : Type :=
| Successes
| Failures (type : string).

#[export] Instance Tally_eq_dec : EqDecision Tally.
Proof. solve_decision. Defined.

Definition tally (w : World) (t : Tally) : nat :=
  match t with
  | Successes => emailSent w
  | Failures type => emailError_value w type
  end.

(** A session whose transaction fields are all empty. *)
Definition cleared (s : Session) : Prop :=
  from s = "" /\ recipients s = [] /\ data s = None.

(** The session after a sender declaration and one recipient declaration
    for each address of [tos], in that order. *)
Definition transaction (s : Session) (sender : string) (tos : list string) : Session :=
  foldl (fun s to => fst (Rcpt s to)) (fst (Mail s sender)) tos.

(** The five ways a call of [Data] ends, by the branch of the code taken. *)
Inductive DataSpec (s : Session) (r : BodyReader) (w : World) : DataResult -> Prop :=
| Data_NoRecipients :
    recipients s = [] ->
    DataSpec s r w
      (mkDataResult
         (Some (smtp.mkSMTPError 554 (5, 5, 1) "Error: no valid recipients"))
         s r (emailError_Inc "no valid recipients" w))
| Data_ReadError (e : error) :
    recipients s <> [] ->
    limited_err r (SesSizeLimit + 1) = Some e ->
    DataSpec s r w
      (mkDataResult
         (Some (smtp.mkSMTPError 451 (4, 5, 1) "Temporary server error reading message"))
         s (advance (taken r) r) (emailError_Inc "read error" w))
| Data_SizeExceeded :
    recipients s <> [] ->
    limited_err r (SesSizeLimit + 1) = None ->
    SesSizeLimit < len (unread r) ->
    DataSpec s r w
      (mkDataResult
         (Some (smtp.mkSMTPError 554 (5, 5, 1) "Error: maximum message size exceeded"))
         s (advance (taken r) r)
         (log_Printf (LogSizeExceeded (SesSizeLimit + 1) SesSizeLimit)
            (emailError_Inc "minimum message size exceed" w)))
| Data_SendError (e : error) :
    recipients s <> [] ->
    closing r = EOF ->
    len (unread r) <= SesSizeLimit ->
    let input :=
      ses.mkSendRawEmailInput (configSetName (backend s)) (Some (from s)) (recipients s)
        (Some (types.mkRawMessage (Some (unread r)))) in
    ses.SendRawEmail (sesClient (backend s)) (received w) input = Some e ->
    DataSpec s r w
      (mkDataResult
         (Some (smtp.mkSMTPError 451 (4, 5, 1) "Temporary server error. Please try again later"))
         (mkSession (backend s) (conn s) (from s) (recipients s) (Some (unread r)))
         (advance (taken r) r)
         (sesError_Inc
            (emailError_Inc "ses error"
               (log_Printf (LogSesError e)
                  (mkWorld (emailSent w) (emailError w) (sesError w) (logged w)
                     (received w ++ [input]))))))
| Data_Sent :
    recipients s <> [] ->
    closing r = EOF ->
    len (unread r) <= SesSizeLimit ->
    let input :=
      ses.mkSendRawEmailInput (configSetName (backend s)) (Some (from s)) (recipients s)
        (Some (types.mkRawMessage (Some (unread r)))) in
    ses.SendRawEmail (sesClient (backend s)) (received w) input = None ->
    DataSpec s r w
      (mkDataResult None
         (mkSession (backend s) (conn s) (from s) (recipients s) (Some (unread r)))
         (advance (taken r) r)
         (emailSent_Inc
            (log_Printf
               (LogSending (from s) (recipients s)
                  match configSetName (backend s) with
                  | Some name => "config set: " +:+ name
                  | None => "no config set"
                  end)
               (mkWorld (emailSent w) (emailError w) (sesError w) (logged w)
                  (received w ++ [input]))))).

(** The number of providers wrapped around the one the default chain resolved. *)
Fixpoint provider_depth (p : aws.CredentialsProvider) : nat :=
  match p with
  | aws.DefaultChain _ => 0
  | aws.AssumeRoleProvider base _ _ => S (provider_depth base)
  | aws.CredentialsCache q => S (provider_depth q)
  end.

(** ** Sample inputs *)

(** A body of [n] zero bytes. *)
Definition body_of_size (n : Z) : list byte := replicate (Z.to_nat n) x00.

Definition sample_config : aws.Config := aws.mkConfig "eu-west-1" (aws.DefaultChain 0).

(** A client whose service answers every send with [answer]. *)
Definition sample_client (answer : option error) : ses.Client :=
  ses.mkClient sample_config (fun _ _ => answer) (fun _ => None).

Definition sample_backend (answer : option error) : Backend :=
  mkBackend (sample_client answer) (Some "campaign-1").

(** A session with a sender and the recipients [tos] declared. *)
Definition sample_session (answer : option error) (tos : list string) : Session :=
  mkSession (sample_backend answer) (smtp.mkConn 1) "a@example.com" tos None.

Definition sample_world : World := mkWorld 0 ∅ 0 [] [].

(** A reader that delivers [body] in calls of at most 4 bytes and then
    reports [closing] in a call of its own. *)
Definition sample_reader (body : list byte) (closing : error) : BodyReader :=
  mkBodyReader body closing 3 false.

Definition sample_flags : Flags :=
  mkFlags false ":2501" false "campaign-1" false ":3000" [].

(** What [Data] leaves behind for a one-byte body when the service answers
    the send with an error. *)
Definition sample_send_failure : DataResult :=
  mkDataResult
    (Some (smtp.mkSMTPError 451 (4, 5, 1) "Temporary server error. Please try again later"))
    (mkSession (sample_backend (Some (Err "throttled"))) (smtp.mkConn 1)
       "a@example.com" ["b@example.com"] (Some ["x"%byte]))
    (sample_reader [] EOF)
    (mkWorld 0 {["ses error" := 1%nat]} 1
       [LogSesError (Err "throttled")]
       [ses.mkSendRawEmailInput (Some "campaign-1") (Some "a@example.com")
          ["b@example.com"] (Some (types.mkRawMessage (Some ["x"%byte])))]).

(** ** Requests and runs *)

(** A request as [Data] builds it for a session of backend [b]: the
    backend's configuration set name, a source, at least one destination,
    and a raw message of at most [SesSizeLimit] bytes. *)
Definition request_of_backend (b : Backend) (req : ses.SendRawEmailInput) : Prop :=
  ses.ConfigurationSetName req = configSetName b
  /\ ses.Destinations req <> []
  /\ exists sender body,
       ses.Source req = Some sender
       /\ ses.RawMessage req = Some (types.mkRawMessage (Some body))
       /\ len body <= SesSizeLimit.

(** The values of the [type] label [Data] counts failures under. *)
Definition failure_labels : list string :=
  [label NoRecipients; label ReadError; label SizeExceeded; label SendError].

(** The reader [r] handing out at most [S b] bytes per call. *)
Definition with_burst (b : nat) (r : BodyReader) : BodyReader :=
  mkBodyReader (unread r) (closing r) b (eager r).

(** The sample command line with two positional arguments. *)
Definition sample_flags_two_args : Flags :=
  mkFlags false ":2501" false "campaign-1" false ":3000" ["127.0.0.1:25"; "ignored"].

(** What [main] has started from the sample command line when the
    environment names a role to assume. *)
Definition sample_running_with_role : Running :=
  mkRunning
    (mkBackend
       (ses.mkClient
          (aws.mkConfig "eu-west-1"
             (aws.CredentialsCache
                (aws.AssumeRoleProvider (aws.DefaultChain 0)
                   "arn:aws:iam::1:role/relay" "ses-smtpd-relay-session")))
          (fun _ _ => None) (fun _ => None))
       (Some "campaign-1"))
    ":2500" "localhost" true None None.

(** One transaction as the engine drives it, followed by a [Reset]. *)
Definition sample_callbacks : list Command :=
  [CmdMail "a@example.com"; CmdRcpt "b@example.com";
   CmdData (sample_reader ["x"%byte] EOF); CmdReset].

(** The callbacks other than [AuthPlain] and [Logout]. *)
Definition changes_state (c : Command) : bool :=
  match c with
  | CmdAuthPlain _ _ | CmdLogout => false
  | CmdMail _ | CmdRcpt _ | CmdData _ | CmdReset => true
  end.

(** ** The readers *)

Lemma advance_0 r : advance 0 r = r.
Proof. destruct r; reflexivity. Qed.

Lemma advance_advance j k r : advance k (advance j r) = advance (j + k) r.
Proof. unfold advance; simpl. by rewrite drop_drop. Qed.

Lemma len_nonneg {A} (l : list A) : 0 <= len l.
Proof. unfold len; lia. Qed.

Lemma len_app {A} (l k : list A) : len (l ++ k) = len l + len k.
Proof. unfold len. rewrite length_app. lia. Qed.

Lemma append_cap_grows c : 0 <= c -> c < append_cap c.
Proof.
  intros Hc. unfold append_cap.
  assert (1 <= (c + 768) / 4) by (apply Z.div_le_lower_bound; lia).
  lia.
Qed.

(** One call of [Read] on a limited body reader. *)
Lemma LimitedReader_Read_exhausted (r : BodyReader) n x :
  n <= 0 -> Read (mkLimitedReader r n) x = ([], Some EOF, mkLimitedReader r n).
Proof.
  intros Hn. unfold Read, LimitedReader_IoReader, LimitedReader_Read; simpl.
  destruct (Z.leb_spec n 0); [reflexivity | lia].
Qed.

Lemma LimitedReader_Read_closing (r : BodyReader) n x :
  0 < n -> unread r = [] ->
  Read (mkLimitedReader r n) x = ([], Some (closing r), mkLimitedReader r n).
Proof.
  intros Hn Hr. unfold Read, LimitedReader_IoReader, LimitedReader_Read; simpl.
  destruct (Z.leb_spec n 0); [lia |].
  unfold Read, BodyReader_IoReader, BodyReader_Read. rewrite Hr.
  f_equal. f_equal. unfold len; simpl. lia.
Qed.

Lemma LimitedReader_Read_bytes (r : BodyReader) n x :
  0 < n -> 0 < x -> unread r <> [] ->
  exists m : nat,
    (0 < m)%nat /\ (m <= length (unread r))%nat /\ Z.of_nat m <= n /\ Z.of_nat m <= x /\
    Read (mkLimitedReader r n) x =
      (take m (unread r),
       match drop m (unread r) with
       | [] => if eager r then Some (closing r) else None
       | _ :: _ => None
       end,
       mkLimitedReader (advance m r) (n - Z.of_nat m)).
Proof.
  intros Hn Hx Hr.
  set (y := if n <? x then n else x).
  assert (Hy : 0 < y /\ y <= n /\ y <= x) by (unfold y; destruct (Z.ltb_spec n x); lia).
  set (m0 := Z.to_nat (Z.min y (Z.of_nat (S (burst r))))).
  exists (min m0 (length (unread r))).
  assert (Hm0 : (0 < m0)%nat /\ Z.of_nat m0 <= y) by (unfold m0; lia).
  assert (Hlen : (0 < length (unread r))%nat)
    by (destruct (unread r); [congruence | simpl; lia]).
  repeat split; try lia.
  unfold Read, LimitedReader_IoReader, LimitedReader_Read; simpl.
  destruct (Z.leb_spec n 0); [lia |].
  fold y. unfold Read, BodyReader_IoReader, BodyReader_Read.
  destruct (unread r) as [|a l] eqn:E; [congruence |].
  destruct (Z.leb_spec y 0); [lia |].
  fold m0. unfold advance. rewrite E.
  assert (Ht : take m0 (a :: l) = take (m0 `min` length (a :: l)) (a :: l)).
  { destruct (Nat.le_ge_cases m0 (length (a :: l))).
    - by rewrite Nat.min_l.
    - rewrite Nat.min_r by done. rewrite !take_ge; [done | lia | lia]. }
  assert (Hd : drop m0 (a :: l) = drop (m0 `min` length (a :: l)) (a :: l)).
  { destruct (Nat.le_ge_cases m0 (length (a :: l))).
    - by rewrite Nat.min_l.
    - rewrite Nat.min_r by done. rewrite !drop_ge; [done | lia | lia]. }
  rewrite <- Ht, <- Hd. f_equal.
  f_equal. unfold len. rewrite Ht, length_take. lia.
Qed.

Lemma limited_err_advance (r : BodyReader) n (m : nat) :
  (m <= length (unread r))%nat -> Z.of_nat m <= n ->
  (drop m (unread r) = [] -> eager r = false) ->
  limited_err (advance m r) (n - Z.of_nat m) = limited_err r n.
Proof.
  intros Hm Hn He. unfold limited_err, advance, len; simpl.
  rewrite length_drop.
  replace (Z.of_nat (length (unread r) - m)) with (Z.of_nat (length (unread r)) - Z.of_nat m) by lia.
  destruct (Z.ltb_spec (Z.of_nat (length (unread r)) - Z.of_nat m) (n - Z.of_nat m)),
           (Z.ltb_spec (Z.of_nat (length (unread r))) n); try lia; try reflexivity.
  destruct (Z.eqb_spec (Z.of_nat (length (unread r)) - Z.of_nat m) (n - Z.of_nat m)),
           (Z.eqb_spec (Z.of_nat (length (unread r))) n); try lia; try reflexivity.
  destruct (eager r) eqn:Eg; [| reflexivity]. simpl.
  destruct (Z.ltb_spec 0 (n - Z.of_nat m)), (Z.ltb_spec 0 n); try lia; try reflexivity.
  assert (drop m (unread r) = []) by (apply drop_ge; lia).
  specialize (He H3). congruence.
Qed.

(** The loop of [io.ReadAll] on a limited body reader: with a round for every
    unread byte and one more it returns, having appended the first [n] unread
    bytes (all of them when there are fewer) to the buffer. *)
Lemma ReadAll_loop_limited (fuel : nat) :
  forall (r : BodyReader) (n : Z) (b : list byte) (c : Z),
    0 <= n -> len b < c -> (length (unread r) < fuel)%nat ->
    ReadAll_loop fuel (mkLimitedReader r n) b c =
      Some (b ++ take (Z.to_nat (Z.min n (len (unread r)))) (unread r),
            limited_err r n,
            mkLimitedReader (advance (Z.to_nat (Z.min n (len (unread r)))) r)
                            (n - Z.min n (len (unread r)))).
Proof.
  induction fuel as [|fuel IH]; intros r n b c Hn Hc Hfuel; [lia |].
  cbn [ReadAll_loop].
  destruct (Z.le_gt_cases n 0) as [Hn0 | Hn0].
  - (* the limit is used up: EOF from the limited reader *)
    assert (n = 0) by lia; subst n.
    rewrite LimitedReader_Read_exhausted by lia.
    pose proof (len_nonneg (unread r)).
    rewrite Z.min_l by lia. simpl. rewrite advance_0.
    unfold limited_err.
    destruct (Z.ltb_spec (len (unread r)) 0); [lia |].
    rewrite andb_false_r. reflexivity.
  - destruct (decide (unread r = [])) as [Hu | Hu].
    + (* the body is exhausted: the closing error *)
      rewrite LimitedReader_Read_closing by (lia || done).
      unfold limited_err. rewrite Hu. change (len (@nil byte)) with 0.
      rewrite Z.min_r by lia. simpl. rewrite advance_0, Z.sub_0_r.
      destruct (Z.ltb_spec 0 n); [| lia].
      destruct (closing r); reflexivity.
    + destruct (LimitedReader_Read_bytes r n (c - len b)) as (m & Hm0 & Hml & Hmn & Hmx & ->);
        [lia | lia | done |].
      remember (unread r) as u eqn:Hequ.
      assert (Hlen : len (drop m u) = len u - Z.of_nat m)
        by (unfold len; rewrite length_drop; lia).
      assert (Hk : Z.to_nat (Z.min n (len u))
                   = (m + Z.to_nat (Z.min (n - Z.of_nat m) (len (drop m u))))%nat)
        by (rewrite Hlen; unfold len; lia).
      assert (Hk' : Z.min n (len u)
                    = Z.of_nat m + Z.min (n - Z.of_nat m) (len (drop m u)))
        by (rewrite Hlen; unfold len; lia).
      assert (Hb : len (b ++ take m u)
                   < (if len (b ++ take m u) =? c then append_cap c else c)).
      { rewrite len_app. unfold len at 2 4. rewrite length_take.
        pose proof (len_nonneg b).
        destruct (Z.eqb_spec (len b + Z.of_nat (m `min` length u)) c) as [Hc' | Hc'].
        - rewrite Hc' at 1. apply append_cap_grows. lia.
        - lia. }
      assert (Hgo : ReadAll_loop fuel (mkLimitedReader (advance m r) (n - Z.of_nat m))
                      (b ++ take m u)
                      (if len (b ++ take m u) =? c then append_cap c else c)
                    = Some (b ++ take (Z.to_nat (Z.min n (len u))) u,
                            limited_err (advance m r) (n - Z.of_nat m),
                            mkLimitedReader (advance (Z.to_nat (Z.min n (len u))) r)
                                            (n - Z.min n (len u)))).
      { rewrite IH; [| lia | exact Hb |]; cycle 1.
        { unfold advance; simpl. rewrite <- Hequ, length_drop. lia. }
        rewrite advance_advance.
        replace (unread (advance m r)) with (drop m u)
          by (unfold advance; simpl; congruence).
        rewrite <- (assoc_L (++)), take_take_drop, <- Hk.
        do 3 f_equal. lia. }
      destruct (drop m u) as [|a' l'] eqn:Hd.
      * (* the last bytes *)
        assert (Hm : m = length u).
        { apply (f_equal length) in Hd. rewrite length_drop in Hd. simpl in Hd. lia. }
        destruct (eager r) eqn:Eg.
        -- (* ... reported together with the closing error *)
           replace (Z.min n (len u)) with (Z.of_nat m) by (unfold len; lia).
           rewrite Nat2Z.id.
           replace (limited_err r n) with (ReadAll_err (closing r)).
           { destruct (closing r); reflexivity. }
           unfold limited_err. rewrite <- Hequ, Eg.
           destruct (Z.ltb_spec (len u) n); [reflexivity |].
           destruct (Z.eqb_spec (len u) n); [| unfold len in *; lia].
           destruct (Z.ltb_spec 0 n); [reflexivity | lia].
        -- (* ... and the closing error left for the next call *)
           rewrite Hgo. rewrite limited_err_advance; [done | rewrite <- Hequ; lia | lia | done].
      * (* more of the body is left *)
        rewrite Hgo.
        rewrite limited_err_advance;
          [done | rewrite <- Hequ; lia | lia | rewrite <- Hequ, Hd; congruence].
Qed.

(** [io.ReadAll(io.LimitReader(r, n))] returns the first [n] unread bytes
    (all of them when there are fewer) and leaves the rest in the reader. *)
Lemma ReadAll_LimitReader (r : BodyReader) (n : Z) :
  0 <= n ->
  io_ReadAll (S (length (unread r))) (io_LimitReader r n) =
    Some (take (Z.to_nat (Z.min n (len (unread r)))) (unread r),
          limited_err r n,
          mkLimitedReader (advance (Z.to_nat (Z.min n (len (unread r)))) r)
                          (n - Z.min n (len (unread r)))).
Proof.
  intros Hn. unfold io_ReadAll, io_LimitReader.
  rewrite ReadAll_loop_limited; [reflexivity | lia | unfold len; simpl; lia | lia].
Qed.

(** The number of body bytes a call of [Data] takes from its reader when the
    session has recipients. *)
Lemma len_take_min {A} (n : Z) (l : list A) :
  0 <= n -> len (take (Z.to_nat (Z.min n (len l))) l) = Z.min n (len l).
Proof. intros Hn. unfold len. rewrite length_take. lia. Qed.

(** [Data] with the call of [io.ReadAll] replaced by what it returns. *)
Lemma Data_unfold (s : Session) (r : BodyReader) (w : World) :
  Data s r w =
    if len (recipients s) =? 0 then
      Some (mkDataResult
              (Some (smtp.mkSMTPError 554 (5, 5, 1) "Error: no valid recipients"))
              s r (emailError_Inc "no valid recipients" w))
    else
      let k := Z.to_nat (Z.min (SesSizeLimit + 1) (len (unread r))) in
      let body := take k (unread r) in
      match limited_err r (SesSizeLimit + 1) with
      | Some _ =>
          Some (mkDataResult
                  (Some (smtp.mkSMTPError 451 (4, 5, 1) "Temporary server error reading message"))
                  s (advance k r) (emailError_Inc "read error" w))
      | None =>
          if SesSizeLimit <? len body then
            Some (mkDataResult
                    (Some (smtp.mkSMTPError 554 (5, 5, 1) "Error: maximum message size exceeded"))
                    s (advance k r)
                    (log_Printf (LogSizeExceeded (len body) SesSizeLimit)
                       (emailError_Inc "minimum message size exceed" w)))
          else
            let s' := mkSession (backend s) (conn s) (from s) (recipients s) (Some body) in
            let input :=
              ses.mkSendRawEmailInput (configSetName (backend s)) (Some (from s))
                (recipients s) (Some (types.mkRawMessage (Some body))) in
            match ses.SendRawEmail (sesClient (backend s)) (received w) input with
            | Some e =>
                Some (mkDataResult
                        (Some (smtp.mkSMTPError 451 (4, 5, 1)
                                 "Temporary server error. Please try again later"))
                        s' (advance k r)
                        (sesError_Inc
                           (emailError_Inc "ses error"
                              (log_Printf (LogSesError e) (snd (ses_SendRawEmail (sesClient (backend s)) input w))))))
            | None =>
                Some (mkDataResult None s' (advance k r)
                        (emailSent_Inc
                           (log_Printf
                              (LogSending (from s) (recipients s)
                                 match configSetName (backend s) with
                                 | Some name => "config set: " +:+ name
                                 | None => "no config set"
                                 end)
                              (snd (ses_SendRawEmail (sesClient (backend s)) input w)))))
            end
      end.
Proof.
  unfold Data.
  destruct (len (recipients s) =? 0); [reflexivity |].
  rewrite ReadAll_LimitReader by (unfold SesSizeLimit; lia).
  cbv zeta.
  destruct (limited_err r (SesSizeLimit + 1)); [reflexivity |].
  destruct (SesSizeLimit <? _); [reflexivity |].
  unfold ses_SendRawEmail; cbn [backend sesClient from recipients data snd].
  destruct (ses.SendRawEmail _ _ _); reflexivity.
Qed.

(** ** The error seen through the limit *)

Lemma limited_err_EOF (r : BodyReader) n : closing r = EOF -> limited_err r n = None.
Proof.
  intros He. unfold limited_err. rewrite He. simpl.
  destruct (_ <? _); [reflexivity |]. destruct (_ && _); reflexivity.
Qed.

Lemma limited_err_before (r : BodyReader) n msg :
  closing r = Err msg -> len (unread r) < n -> limited_err r n = Some (Err msg).
Proof.
  intros He Hlt. unfold limited_err. rewrite He.
  destruct (Z.ltb_spec (len (unread r)) n); [reflexivity | lia].
Qed.

Lemma limited_err_beyond (r : BodyReader) n : n < len (unread r) -> limited_err r n = None.
Proof.
  intros Hlt. unfold limited_err.
  destruct (Z.ltb_spec (len (unread r)) n); [lia |].
  destruct (Z.eqb_spec (len (unread r)) n); [lia | reflexivity].
Qed.

Lemma limited_err_None_within (r : BodyReader) n :
  limited_err r n = None -> len (unread r) < n -> closing r = EOF.
Proof.
  unfold limited_err. intros He Hlt.
  destruct (Z.ltb_spec (len (unread r)) n); [| lia].
  destruct (closing r); [reflexivity | discriminate].
Qed.

Lemma taken_le (r : BodyReader) :
  (taken r <= length (unread r))%nat /\ Z.of_nat (taken r) <= SesSizeLimit + 1.
Proof. unfold taken, len, SesSizeLimit. lia. Qed.

Lemma taken_all (r : BodyReader) :
  len (unread r) <= SesSizeLimit -> taken r = length (unread r).
Proof. unfold taken, len, SesSizeLimit. lia. Qed.

Lemma len_nil_inv {A} (l : list A) : len l = 0 -> l = [].
Proof. destruct l; [reflexivity | unfold len; simpl; lia]. Qed.

(** ** [Data] ends, in one of its five ways *)

Lemma Data_spec (s : Session) (r : BodyReader) (w : World) :
  exists d, Data s r w = Some d /\ DataSpec s r w d.
Proof.
  rewrite Data_unfold.
  destruct (Z.eqb_spec (len (recipients s)) 0) as [H0 | H0].
  { eexists; split; [reflexivity |]. constructor. by apply len_nil_inv. }
  assert (Hrcpt : recipients s <> []) by (intros E; rewrite E in H0; apply H0; reflexivity).
  cbv zeta. fold (taken r).
  assert (Hlen : len (take (taken r) (unread r)) = Z.min (SesSizeLimit + 1) (len (unread r)))
    by (apply len_take_min; unfold SesSizeLimit; lia).
  rewrite Hlen.
  destruct (limited_err r (SesSizeLimit + 1)) as [e |] eqn:He.
  { eexists; split; [reflexivity |]. by econstructor. }
  destruct (Z.ltb_spec SesSizeLimit (Z.min (SesSizeLimit + 1) (len (unread r)))) as [Hbig | Hfit].
  { rewrite Z.min_l by lia.
    eexists; split; [reflexivity |]. constructor; [done | done | lia]. }
  assert (Hfit' : len (unread r) <= SesSizeLimit) by lia.
  assert (Heof : closing r = EOF) by (apply (limited_err_None_within r _ He); lia).
  rewrite take_ge by (rewrite taken_all by done; lia).
  unfold ses_SendRawEmail; cbn [snd].
  destruct (ses.SendRawEmail _ _ _) as [e |] eqn:Hsend.
  - eexists; split; [reflexivity |]. by apply Data_SendError.
  - eexists; split; [reflexivity |]. by apply Data_Sent.
Qed.

(** A call of [Data] returns. *)
Lemma Data_returns (s : Session) (r : BodyReader) (w : World) :
  exists d, Data s r w = Some d.
Proof. destruct (Data_spec s r w) as (d & Hd & _). eauto. Qed.

Lemma Data_inv (s : Session) (r : BodyReader) (w : World) (d : DataResult) :
  Data s r w = Some d -> DataSpec s r w d.
Proof.
  intros Hd. destruct (Data_spec s r w) as (d' & Hd' & Hs). congruence.
Qed.

(** ** The counters *)

Lemma emailError_Inc_same (type : string) (w : World) :
  emailError_value (emailError_Inc type w) type = S (emailError_value w type).
Proof. unfold emailError_value at 1, emailError_Inc; simpl. by rewrite lookup_insert_eq. Qed.

Lemma emailError_Inc_other (type type' : string) (w : World) :
  type <> type' ->
  emailError_value (emailError_Inc type w) type' = emailError_value w type'.
Proof.
  intros Hne. unfold emailError_value at 1, emailError_Inc; simpl.
  by rewrite lookup_insert_ne.
Qed.

Lemma tally_emailError_Inc (type : string) (w : World) (t : Tally) :
  t <> Failures type -> tally (emailError_Inc type w) t = tally w t.
Proof.
  destruct t as [| type']; intros Hne; [reflexivity |].
  apply emailError_Inc_other. congruence.
Qed.

Lemma received_grows_neq {A} (l : list A) (x : A) : l ++ [x] <> l.
Proof.
  intros E. apply (f_equal length) in E. rewrite length_app in E. simpl in E. lia.
Qed.

(** ** Sender and recipient declarations *)

Lemma transaction_fields (s : Session) (sender : string) (tos : list string) :
  backend (transaction s sender tos) = backend s
  /\ conn (transaction s sender tos) = conn s
  /\ from (transaction s sender tos) = sender
  /\ recipients (transaction s sender tos) = recipients s ++ tos
  /\ data (transaction s sender tos) = data s.
Proof.
  unfold transaction.
  induction tos as [| to tos IH] using rev_ind.
  - simpl. by rewrite app_nil_r.
  - rewrite foldl_app.
    destruct IH as (Hb & Hc & Hf & Hr & Hd).
    remember (foldl _ _ tos) as s' eqn:Hs'.
    simpl. rewrite Hr, (assoc_L (++)). done.
Qed.

(** ** Startup *)

Section StartupFacts.

Variable environ : gmap string string.
Variable config_LoadDefaultConfig : result aws.Config.
Variable sts_GetCallerIdentity : aws.Config -> result aws.CallerIdentity.
Variable service_SendRawEmail :
  aws.Config -> list ses.SendRawEmailInput -> ses.SendRawEmailInput -> option error.
Variable service_DescribeConfigurationSet : aws.Config -> string -> option error.

(** The backend [main] serves with carries the flag's value as its label,
    and no label when the flag is empty. *)
Lemma main_configSetName (f : Flags) (w w' : World) (run : Running) :
  main environ config_LoadDefaultConfig sts_GetCallerIdentity
       service_SendRawEmail service_DescribeConfigurationSet f w = (Listening run, w') ->
  configSetName (server_Backend run)
  = if String.eqb (configurationSetName f) "" then None else Some (configurationSetName f).
Proof.
  unfold main. intros H.
  destruct (showVersion f); [discriminate |].
  destruct (makeSesClient _ _ _ _ _ _) as [[client | e] w1]; [| discriminate].
  destruct (String.eqb (configurationSetName f) "") eqn:Hname; simpl in H.
  - destruct (negb _); [| destruct (_ <? _)]; inversion H; reflexivity.
  - destruct (validateConfigurationSet _ _); [discriminate |].
    destruct (negb _); [| destruct (_ <? _)]; inversion H; reflexivity.
Qed.

End StartupFacts.

Lemma CredentialsProvider_acyclic (p : aws.CredentialsProvider) (arn name : string) :
  p <> aws.CredentialsCache (aws.AssumeRoleProvider p arn name).
Proof.
  intros E. apply (f_equal provider_depth) in E. simpl in E. lia.
Qed.

(** ** The transaction bridge *)

(** C1. When the session has no recipients, [Data] returns 554 with enhanced
    code 5.5.1, takes no byte from the reader, sends nothing to the SES API,
    and increments the [emailError] child for no valid recipients. *)
Theorem data_without_recipients (s : Session) (r : BodyReader) (w : World) :
  recipients s = [] ->
  exists d err,
    Data s r w = Some d
    /\ returned d = Some err
    /\ smtp.Code err = 554
    /\ smtp.EnhancedCode err = (5, 5, 1)
    /\ reader d = r
    /\ received (world d) = received w
    /\ emailError_value (world d) (label NoRecipients)
       = S (emailError_value w (label NoRecipients)).
Proof.
  intros Hnone. unfold Data. rewrite Hnone.
  change (len (@nil string) =? 0) with true. cbv iota.
  do 2 eexists. split; [reflexivity |]. cbn [returned reader world smtp.Code smtp.EnhancedCode].
  repeat split. apply emailError_Inc_same.
Qed.

(** A session with a sender and no recipient, and a reader holding five bytes. *)
Lemma data_without_recipients_witness :
  exists d err,
    Data (sample_session None []) (sample_reader (body_of_size 5) EOF) sample_world = Some d
    /\ returned d = Some err
    /\ smtp.Code err = 554
    /\ smtp.EnhancedCode err = (5, 5, 1)
    /\ reader d = sample_reader (body_of_size 5) EOF
    /\ received (world d) = received sample_world
    /\ emailError_value (world d) (label NoRecipients)
       = S (emailError_value sample_world (label NoRecipients)).
Proof.
  apply (data_without_recipients (sample_session None []) (sample_reader (body_of_size 5) EOF)
           sample_world).
  reflexivity.
Defined.

(** C2. [Data] takes at most 40,000,001 bytes from its reader. With
    recipients declared, a complete body of exactly 40,000,000 bytes is sent
    to the SES API, and a complete body of more than 40,000,000 bytes is
    answered 554 with enhanced code 5.5.1, counted as size exceeded, and
    never sent; so is a body of more than 40,000,001 bytes whatever the
    reader reports after it, since [Data] never reads that far. *)
Theorem data_size_limit :
  (forall s r w,
      exists d k,
        Data s r w = Some d
        /\ reader d = advance k r
        /\ (k <= length (unread r))%nat
        /\ Z.of_nat k <= 40000001)
  /\ (forall s r w,
        recipients s <> [] -> closing r = EOF -> len (unread r) = 40000000 ->
        exists d,
          Data s r w = Some d
          /\ received (world d)
             = received w
               ++ [ses.mkSendRawEmailInput (configSetName (backend s)) (Some (from s))
                     (recipients s) (Some (types.mkRawMessage (Some (unread r))))])
  /\ (forall s r w,
        recipients s <> [] -> closing r = EOF -> 40000000 < len (unread r) ->
        exists d err,
          Data s r w = Some d
          /\ returned d = Some err
          /\ smtp.Code err = 554
          /\ smtp.EnhancedCode err = (5, 5, 1)
          /\ received (world d) = received w
          /\ emailError_value (world d) (label SizeExceeded)
             = S (emailError_value w (label SizeExceeded)))
  /\ (forall s r w,
        recipients s <> [] -> 40000001 < len (unread r) ->
        exists d err,
          Data s r w = Some d
          /\ returned d = Some err
          /\ smtp.Code err = 554
          /\ smtp.EnhancedCode err = (5, 5, 1)
          /\ received (world d) = received w
          /\ emailError_value (world d) (label SizeExceeded)
             = S (emailError_value w (label SizeExceeded))).
Proof.
  split; [| split; [| split]].
  - intros s r w. destruct (Data_spec s r w) as (d & Hd & Hspec).
    exists d. destruct Hspec.
    + exists 0%nat. rewrite advance_0. repeat split; [done | lia | lia].
    + exists (taken r). pose proof (taken_le r). unfold SesSizeLimit in *.
      repeat split; [done | lia | lia].
    + exists (taken r). pose proof (taken_le r). unfold SesSizeLimit in *.
      repeat split; [done | lia | lia].
    + exists (taken r). pose proof (taken_le r). unfold SesSizeLimit in *.
      repeat split; [done | lia | lia].
    + exists (taken r). pose proof (taken_le r). unfold SesSizeLimit in *.
      repeat split; [done | lia | lia].
  - intros s r w Hrcpt Heof Hlen.
    destruct (Data_spec s r w) as (d & Hd & Hspec).
    exists d. split; [done |].
    destruct Hspec as [Hnil | e _ Herr | _ _ Hbig | e _ _ _ input _ | _ _ _ input _];
      try reflexivity.
    + contradiction.
    + rewrite limited_err_EOF in Herr by done. discriminate.
    + unfold SesSizeLimit in Hbig. lia.
  - intros s r w Hrcpt Heof Hlen.
    destruct (Data_spec s r w) as (d & Hd & Hspec).
    exists d.
    destruct Hspec as [Hnil | e _ Herr | _ _ Hbig | e _ _ Hfit input _ | _ _ Hfit input _].
    + contradiction.
    + rewrite limited_err_EOF in Herr by done. discriminate.
    + eexists. split; [done |]. cbn [returned world smtp.Code smtp.EnhancedCode].
      repeat split. apply emailError_Inc_same.
    + unfold SesSizeLimit in Hfit. lia.
    + unfold SesSizeLimit in Hfit. lia.
  - intros s r w Hrcpt Hlen.
    destruct (Data_spec s r w) as (d & Hd & Hspec).
    exists d.
    destruct Hspec as [Hnil | e _ Herr | _ _ Hbig | e _ _ Hfit input _ | _ _ Hfit input _].
    + contradiction.
    + rewrite limited_err_beyond in Herr by (unfold SesSizeLimit; lia). discriminate.
    + eexists. split; [done |]. cbn [returned world smtp.Code smtp.EnhancedCode].
      repeat split. apply emailError_Inc_same.
    + unfold SesSizeLimit in Hfit. lia.
    + unfold SesSizeLimit in Hfit. lia.
Qed.

(** The length of a sample body, without building it. *)
Lemma len_body_of_size (n : Z) : 0 <= n -> len (body_of_size n) = n.
Proof. intros Hn. unfold len, body_of_size. rewrite length_replicate. lia. Qed.

(** Bodies of 40,000,000 and of 40,000,001 bytes, one recipient declared. *)
Lemma data_size_limit_witness :
  (exists d,
      Data (sample_session None ["b@example.com"])
           (sample_reader (body_of_size 40000000) EOF) sample_world = Some d
      /\ received (world d)
         = received sample_world
           ++ [ses.mkSendRawEmailInput
                 (configSetName (backend (sample_session None ["b@example.com"])))
                 (Some (from (sample_session None ["b@example.com"])))
                 (recipients (sample_session None ["b@example.com"]))
                 (Some (types.mkRawMessage
                          (Some (unread (sample_reader (body_of_size 40000000) EOF)))))])
  /\ (exists d err,
        Data (sample_session None ["b@example.com"])
             (sample_reader (body_of_size 40000001) EOF) sample_world = Some d
        /\ returned d = Some err
        /\ smtp.Code err = 554
        /\ smtp.EnhancedCode err = (5, 5, 1)
        /\ received (world d) = received sample_world
        /\ emailError_value (world d) (label SizeExceeded)
           = S (emailError_value sample_world (label SizeExceeded))).
Proof.
  split.
  - apply (proj1 (proj2 data_size_limit)).
    + discriminate.
    + reflexivity.
    + change (len (body_of_size 40000000) = 40000000). apply len_body_of_size. lia.
  - apply (proj1 (proj2 (proj2 data_size_limit))).
    + discriminate.
    + reflexivity.
    + change (40000000 < len (body_of_size 40000001)). rewrite len_body_of_size; lia.
Defined.

(** C3. A transaction declared on a fresh session of the backend [main]
    serves with (sender, then the recipients [tos] in order) and completed
    with a body within the limit makes [Data] send exactly one request:
    its source is the sender, its destinations are [tos] in the order
    declared, its raw message is the body read, and its configuration set
    name is the value of the startup flag, or nil when the flag is empty. *)
Theorem send_request_fields
  (environ : gmap string string)
  (config_LoadDefaultConfig : result aws.Config)
  (sts_GetCallerIdentity : aws.Config -> result aws.CallerIdentity)
  (service_SendRawEmail :
     aws.Config -> list ses.SendRawEmailInput -> ses.SendRawEmailInput -> option error)
  (service_DescribeConfigurationSet : aws.Config -> string -> option error)
  (f : Flags) (w0 w1 : World) (run : Running)
  (c : smtp.Conn) (sender : string) (tos : list string) (r : BodyReader) (w : World) :
  main environ config_LoadDefaultConfig sts_GetCallerIdentity
       service_SendRawEmail service_DescribeConfigurationSet f w0 = (Listening run, w1) ->
  tos <> [] -> closing r = EOF -> len (unread r) <= SesSizeLimit ->
  exists d,
    Data (transaction (fst (NewSession (server_Backend run) c)) sender tos) r w = Some d
    /\ received (world d)
       = received w
         ++ [ses.mkSendRawEmailInput
               (if String.eqb (configurationSetName f) "" then None
                else Some (configurationSetName f))
               (Some sender) tos (Some (types.mkRawMessage (Some (unread r))))].
Proof.
  intros Hmain Htos Heof Hfit.
  apply main_configSetName in Hmain.
  set (s := transaction _ sender tos).
  destruct (transaction_fields (fst (NewSession (server_Backend run) c)) sender tos)
    as (Hb & _ & Hf & Hr & _).
  fold s in Hb, Hf, Hr. simpl in Hb, Hr.
  destruct (Data_spec s r w) as (d & Hd & Hspec).
  exists d. split; [done |].
  destruct Hspec as [Hnil | e _ Herr | _ _ Hbig | e _ _ _ input _ | _ _ _ input _].
  - congruence.
  - rewrite limited_err_EOF in Herr by done. discriminate.
  - lia.
  - cbn [world received]. subst input. by rewrite Hb, Hf, Hr, Hmain.
  - cbn [world received]. subst input. by rewrite Hb, Hf, Hr, Hmain.
Qed.

(** Started with the flag set to campaign-1, no role in the environment and
    a failing identity lookup; a transaction with two recipients. *)
Lemma send_request_fields_witness :
  exists d,
    Data (transaction (fst (NewSession (mkBackend (sample_client None) (Some "campaign-1"))
                              (smtp.mkConn 7)))
            "a@example.com" ["b@example.com"; "c@example.com"])
         (sample_reader (String.list_byte_of_string "Subject: hi") EOF) sample_world
    = Some d
    /\ received (world d)
       = received sample_world
         ++ [ses.mkSendRawEmailInput
               (if String.eqb (configurationSetName sample_flags) "" then None
                else Some (configurationSetName sample_flags))
               (Some "a@example.com") ["b@example.com"; "c@example.com"]
               (Some (types.mkRawMessage
                        (Some (unread (sample_reader
                                         (String.list_byte_of_string "Subject: hi") EOF)))))].
Proof.
  apply (send_request_fields ∅ (Ok sample_config) (fun _ => Failed (Err "no identity"))
           (fun _ _ _ => None) (fun _ _ => None) sample_flags sample_world
           (log_Printf (LogConfigSetValidated "campaign-1")
              (log_Printf (LogIdentityWarning (Err "no identity")) sample_world))
           (mkRunning (mkBackend (sample_client None) (Some "campaign-1"))
              ":2500" "localhost" true None None)).
  - reflexivity.
  - discriminate.
  - reflexivity.
  - vm_compute. discriminate.
Defined.

(** C4. When [Data] invokes the send operation and the operation fails,
    [Data] increments the [emailError] child for ses error and the
    [sesError] counter, and returns 451 with enhanced code 4.5.1. *)
Theorem send_failure_counted
  (s : Session) (r : BodyReader) (w : World) (d : DataResult)
  (input : ses.SendRawEmailInput) (e : error) :
  Data s r w = Some d ->
  received (world d) = received w ++ [input] ->
  ses.SendRawEmail (sesClient (backend s)) (received w) input = Some e ->
  exists err,
    returned d = Some err
    /\ smtp.Code err = 451
    /\ smtp.EnhancedCode err = (4, 5, 1)
    /\ emailError_value (world d) (label SendError)
       = S (emailError_value w (label SendError))
    /\ sesError (world d) = S (sesError w).
Proof.
  intros Hd Hsent Hfail. apply Data_inv in Hd.
  destruct Hd as [Hnil | e' _ Herr | _ _ Hbig | e' _ _ _ input' Hsend | _ _ _ input' Hsend];
    cbn [world received emailError_Inc log_Printf sesError_Inc emailSent_Inc] in Hsent.
  - symmetry in Hsent. by apply received_grows_neq in Hsent.
  - symmetry in Hsent. by apply received_grows_neq in Hsent.
  - symmetry in Hsent. by apply received_grows_neq in Hsent.
  - eexists. cbn [returned world smtp.Code smtp.EnhancedCode].
    repeat split.
    unfold emailError_value, emailError_Inc; simpl. by rewrite lookup_insert_eq.
  - apply app_inv_head in Hsent. injection Hsent as <-. congruence.
Qed.

(** A one-byte body, and a service that answers every send with an error. *)
Lemma send_failure_counted_witness :
  exists err,
    returned sample_send_failure = Some err
    /\ smtp.Code err = 451
    /\ smtp.EnhancedCode err = (4, 5, 1)
    /\ emailError_value (world sample_send_failure) (label SendError)
       = S (emailError_value sample_world (label SendError))
    /\ sesError (world sample_send_failure) = S (sesError sample_world).
Proof.
  apply (send_failure_counted
           (sample_session (Some (Err "throttled")) ["b@example.com"])
           (sample_reader ["x"%byte] EOF) sample_world sample_send_failure
           (ses.mkSendRawEmailInput (Some "campaign-1") (Some "a@example.com")
              ["b@example.com"] (Some (types.mkRawMessage (Some ["x"%byte]))))
           (Err "throttled")).
  - vm_compute. reflexivity.
  - reflexivity.
  - reflexivity.
Defined.

(** C5. A call of [Data] increments exactly one of the outcome counters
    ([emailSent], or the [emailError] child of one of the four causes) by
    one and leaves every other outcome counter as it was: [emailSent] moves
    exactly when [Data] returns nil. [sesError] is not one of them: it moves,
    by one, exactly when the counter incremented is the one for ses error. *)
Theorem data_counts_one_outcome (s : Session) (r : BodyReader) (w : World) :
  exists d t,
    Data s r w = Some d
    /\ t ∈ [Successes; Failures (label NoRecipients); Failures (label ReadError);
            Failures (label SizeExceeded); Failures (label SendError)]
    /\ tally (world d) t = S (tally w t)
    /\ (forall t', t' <> t -> tally (world d) t' = tally w t')
    /\ (t = Successes <-> returned d = None)
    /\ sesError (world d)
       = if decide (t = Failures (label SendError)) then S (sesError w) else sesError w.
Proof.
  destruct (Data_spec s r w) as (d & Hd & Hspec).
  exists d.
  destruct Hspec as [Hnil | e _ Herr | _ _ Hbig | e _ _ _ input _ | _ _ _ input _].
  - exists (Failures (label NoRecipients)).
    split; [done |]. split; [set_solver |].
    cbn [world returned]. split; [apply emailError_Inc_same |].
    split; [intros t' Hne; by apply tally_emailError_Inc |].
    split; [split; discriminate |]. by case_decide.
  - exists (Failures (label ReadError)).
    split; [done |]. split; [set_solver |].
    cbn [world returned]. split; [apply emailError_Inc_same |].
    split; [intros t' Hne; by apply tally_emailError_Inc |].
    split; [split; discriminate |]. by case_decide.
  - exists (Failures (label SizeExceeded)).
    split; [done |]. split; [set_solver |].
    cbn [world returned]. split; [apply (emailError_Inc_same "minimum message size exceed") |].
    split; [intros t' Hne; by apply (tally_emailError_Inc "minimum message size exceed") |].
    split; [split; discriminate |]. by case_decide.
  - exists (Failures (label SendError)).
    split; [done |]. split; [set_solver |].
    cbn [world returned]. split.
    { unfold tally, label, emailError_value, emailError_Inc; simpl.
      by rewrite lookup_insert_eq. }
    split.
    { intros [| type] Hne; [reflexivity |].
      unfold tally, label, emailError_value, emailError_Inc; simpl.
      rewrite lookup_insert_ne; [done |]. intros E. apply Hne. by rewrite <- E. }
    split; [split; discriminate |]. by case_decide.
  - exists Successes.
    split; [done |]. split; [set_solver |].
    cbn [world returned]. split; [reflexivity |].
    split; [intros [| type] Hne; [done | reflexivity] |].
    split; [done |]. by case_decide.
Qed.

(** C6. With recipients declared, a reader that fails before 40,000,001
    bytes were read makes [Data] increment the [emailError] child for read
    error, send nothing, and return 451 with enhanced code 4.5.1. *)
Theorem read_failure_rejected (s : Session) (r : BodyReader) (w : World) (msg : string) :
  recipients s <> [] ->
  closing r = Err msg ->
  len (unread r) < SesSizeLimit + 1 ->
  exists d err,
    Data s r w = Some d
    /\ returned d = Some err
    /\ smtp.Code err = 451
    /\ smtp.EnhancedCode err = (4, 5, 1)
    /\ received (world d) = received w
    /\ emailError_value (world d) (label ReadError)
       = S (emailError_value w (label ReadError)).
Proof.
  intros Hrcpt Hfail Hbefore.
  destruct (Data_spec s r w) as (d & Hd & Hspec).
  exists d.
  destruct Hspec as [Hnil | e _ Herr | _ _ Hbig | e _ Heof _ input _ | _ Heof _ input _];
    try congruence.
  - eexists. split; [done |]. cbn [returned world smtp.Code smtp.EnhancedCode].
    repeat split. apply emailError_Inc_same.
  - lia.
Qed.

(** The connection fails after nine bytes of the body. *)
Lemma read_failure_rejected_witness :
  exists d err,
    Data (sample_session None ["b@example.com"])
         (sample_reader (body_of_size 9) (Err "connection reset")) sample_world = Some d
    /\ returned d = Some err
    /\ smtp.Code err = 451
    /\ smtp.EnhancedCode err = (4, 5, 1)
    /\ received (world d) = received sample_world
    /\ emailError_value (world d) (label ReadError)
       = S (emailError_value sample_world (label ReadError)).
Proof.
  apply (read_failure_rejected (sample_session None ["b@example.com"])
           (sample_reader (body_of_size 9) (Err "connection reset")) sample_world
           "connection reset").
  - discriminate.
  - reflexivity.
  - vm_compute. reflexivity.
Defined.

(** C7. [Reset] empties the sender, the recipients and the body of any
    session and keeps its backend and connection; as a callback it returns
    no error and leaves the package-level state, the requests received by
    the SES API among it, untouched; and any sequence of callbacks after it
    runs as on the session [NewSession] makes for the same connection. *)
Theorem reset_clears_transaction (s : Session) :
  cleared (Reset s)
  /\ backend (Reset s) = backend s
  /\ conn (Reset s) = conn s
  /\ (forall w, exec CmdReset s w = Some (None, Reset s, w))
  /\ (forall cs w, run cs (Reset s) w = run cs (fst (NewSession (backend s) (conn s))) w).
Proof.
  unfold cleared, Reset. cbn [from recipients data backend conn exec NewSession fst].
  repeat split.
Qed.






(** C9. When the default configuration loads, [makeSesClient] returns a
    client whose credentials are the loaded ones wrapped in a (cached)
    assume-role provider if and only if the environment variable
    AWS_ROLE_ARN has a non-empty value; the provider then assumes that role
    under the session name given by AWS_ROLE_SESSION_NAME, or under
    ses-smtpd-relay-session when that variable is unset or empty; without a
    role the loaded configuration is used as it is. *)
Theorem role_assumption_iff_role_arn
  (environ : gmap string string) (cfg : aws.Config)
  (sts_GetCallerIdentity : aws.Config -> result aws.CallerIdentity)
  (service_SendRawEmail :
     aws.Config -> list ses.SendRawEmailInput -> ses.SendRawEmailInput -> option error)
  (service_DescribeConfigurationSet : aws.Config -> string -> option error)
  (w : World) :
  exists client w',
    makeSesClient environ (Ok cfg) sts_GetCallerIdentity
                  service_SendRawEmail service_DescribeConfigurationSet w = (Ok client, w')
    /\ ((exists arn name,
            aws.Credentials (ses.Options client)
            = aws.CredentialsCache (aws.AssumeRoleProvider (aws.Credentials cfg) arn name))
        <-> os_Getenv environ "AWS_ROLE_ARN" <> "")
    /\ (os_Getenv environ "AWS_ROLE_ARN" <> "" ->
        aws.Credentials (ses.Options client)
        = aws.CredentialsCache
            (aws.AssumeRoleProvider (aws.Credentials cfg)
               (os_Getenv environ "AWS_ROLE_ARN")
               (if decide (os_Getenv environ "AWS_ROLE_SESSION_NAME" = "")
                then "ses-smtpd-relay-session"
                else os_Getenv environ "AWS_ROLE_SESSION_NAME")))
    /\ (os_Getenv environ "AWS_ROLE_ARN" = "" -> ses.Options client = cfg).
Proof.
  unfold makeSesClient.
  destruct (String.eqb_spec (os_Getenv environ "AWS_ROLE_ARN") "") as [Harn | Harn];
    cbn [negb]; do 2 eexists; (split; [reflexivity |]); cbn [ses_NewFromConfig ses.Options].
  - split; [| split; [congruence | done]].
    split; [| congruence].
    intros (arn & name & E). by apply CredentialsProvider_acyclic in E.
  - cbn [aws.Credentials].
    split; [| split; [| congruence]].
    + split; [done |]. intros _. eauto.
    + intros _. do 3 f_equal.
      destruct (String.eqb_spec (os_Getenv environ "AWS_ROLE_SESSION_NAME") "");
        case_decide; congruence.
Qed.

(** C10. [Mail] returns no error and records its argument as the sender,
    also when a sender is already recorded (the later one replaces it, as if
    it had been the only one), and changes no other field of the session. *)
Theorem mail_last_write_wins (s : Session) (first second : string) :
  snd (Mail s first) = None
  /\ from (fst (Mail s first)) = first
  /\ snd (Mail (fst (Mail s first)) second) = None
  /\ from (fst (Mail (fst (Mail s first)) second)) = second
  /\ fst (Mail (fst (Mail s first)) second) = fst (Mail s second)
  /\ backend (fst (Mail s first)) = backend s
  /\ conn (fst (Mail s first)) = conn s
  /\ recipients (fst (Mail s first)) = recipients s
  /\ data (fst (Mail s first)) = data s.
Proof. unfold Mail; cbn. repeat split. Qed.

(** A reader that fails exactly at byte 40,000,001: the failure is seen, and
    counted as a read error, only when it is reported together with that
    byte; reported in a call of its own it is never read, and the body is
    rejected for its size. *)
Lemma read_failure_at_ceiling (s : Session) (r : BodyReader) (w : World) (msg : string) :
  recipients s <> [] ->
  closing r = Err msg ->
  len (unread r) = SesSizeLimit + 1 ->
  exists d err,
    Data s r w = Some d
    /\ returned d = Some err
    /\ smtp.Code err = (if eager r then 451 else 554)
    /\ received (world d) = received w.
Proof.
  intros Hrcpt Hfail Hlen.
  assert (Herr : limited_err r (SesSizeLimit + 1)
                 = if eager r then Some (Err msg) else None).
  { unfold limited_err. rewrite Hfail, Hlen.
    rewrite Z.ltb_irrefl, Z.eqb_refl. destruct (eager r); reflexivity. }
  destruct (Data_spec s r w) as (d & Hd & Hspec).
  exists d.
  destruct Hspec as [Hnil | e _ Herr' | _ Herr' Hbig | e _ Heof _ input _ | _ Heof _ input _];
    try congruence.
  - eexists. split; [done |]. cbn [returned world smtp.Code].
    destruct (eager r); [done | congruence].
  - eexists. split; [done |]. cbn [returned world smtp.Code].
    destruct (eager r); [congruence | done].
Qed.

(** ** Scenarios, run on the model *)

(** One recipient, a short body, the send succeeds: nil is returned, the
    success counter is 1 and no failure counter exists. *)
Example scenario_send_succeeds :
  exists d,
    Data (sample_session None ["b@example.com"])
         (sample_reader (String.list_byte_of_string "Subject: hi") EOF) sample_world
    = Some d
    /\ returned d = None
    /\ emailSent (world d) = 1%nat
    /\ emailError (world d) = ∅
    /\ sesError (world d) = 0%nat
    /\ length (received (world d)) = 1%nat.
Proof. eexists. split; [vm_compute; reflexivity |]. repeat split. Qed.

(** No recipient declared: 554 5.5.1, the counter for no valid recipients is
    1 and nothing is sent. *)
Example scenario_no_recipients :
  exists d,
    Data (sample_session None []) (sample_reader [ "x"%byte ] EOF) sample_world = Some d
    /\ returned d = Some (smtp.mkSMTPError 554 (5, 5, 1) "Error: no valid recipients")
    /\ emailError_value (world d) (label NoRecipients) = 1%nat
    /\ emailSent (world d) = 0%nat
    /\ received (world d) = [].
Proof. eexists. split; [vm_compute; reflexivity |]. repeat split. Qed.

(** The reader fails after nine bytes, handed out four at a time: 451 4.5.1,
    the counter for read errors is 1, the nine bytes are gone from the
    reader and nothing is sent. *)
Example scenario_read_failure :
  exists d,
    Data (sample_session None ["b@example.com"])
         (sample_reader (body_of_size 9) (Err "connection reset")) sample_world = Some d
    /\ returned d
       = Some (smtp.mkSMTPError 451 (4, 5, 1) "Temporary server error reading message")
    /\ emailError_value (world d) (label ReadError) = 1%nat
    /\ unread (reader d) = []
    /\ received (world d) = [].
Proof. eexists. split; [vm_compute; reflexivity |]. repeat split. Qed.

(** ** Sequences of callbacks *)

(** A callback other than [Data] leaves the package-level state alone; a
    call of [Data] ends in one of its five ways. Either way the session
    stays with its backend and connection. *)
Lemma exec_cases (c : Command) (s : Session) (w : World)
      (e : option smtp.SMTPError) (s' : Session) (w' : World) :
  exec c s w = Some (e, s', w') ->
  backend s' = backend s /\ conn s' = conn s
  /\ (w' = w
      \/ exists r d, c = CmdData r /\ DataSpec s r w d /\ e = returned d
                     /\ s' = session d /\ w' = world d).
Proof.
  destruct c as [u p | a | a | r | |]; simpl; intros H;
    try (injection H as <- <- <-; repeat split; by left).
  destruct (Data s r w) as [d |] eqn:Hd; [| discriminate].
  injection H as <- <- <-. apply Data_inv in Hd.
  split; [| split]; [| | right; by exists r, d].
  - by destruct Hd.
  - by destruct Hd.
Qed.

Lemma exec_returns (c : Command) (s : Session) (w : World) :
  exists e s' w', exec c s w = Some (e, s', w').
Proof.
  destruct c as [u p | a | a | r | |]; simpl; eauto.
  destruct (Data_returns s r w) as (d & ->). eauto.
Qed.

Lemma run_app (cs1 cs2 : list Command) (s : Session) (w : World) :
  run (cs1 ++ cs2) s w
  = match run cs1 s w with
    | None => None
    | Some (es1, s1, w1) =>
        match run cs2 s1 w1 with
        | None => None
        | Some (es2, s2, w2) => Some (es1 ++ es2, s2, w2)
        end
    end.
Proof.
  revert s w. induction cs1 as [| c cs1 IH]; intros s w; simpl.
  - destruct (run cs2 s w) as [[[es2 s2] w2] |]; reflexivity.
  - destruct (exec c s w) as [[[e s1] w1] |]; [| reflexivity].
    rewrite IH. destruct (run cs1 s1 w1) as [[[es1 s1'] w1'] |]; [| reflexivity].
    destruct (run cs2 s1' w1') as [[[es2 s2] w2] |]; reflexivity.
Qed.

(** A sequence of callbacks returns, and a relation between the state before
    and after that every callback establishes, and that is reflexive and
    transitive, holds across the sequence. *)
Lemma run_invariant (P : Session -> World -> Session -> World -> Prop) :
  (forall s w, P s w s w) ->
  (forall s w s1 w1 s2 w2, P s w s1 w1 -> P s1 w1 s2 w2 -> P s w s2 w2) ->
  (forall c s w e s' w', exec c s w = Some (e, s', w') -> P s w s' w') ->
  forall cs s w,
    exists es s' w', run cs s w = Some (es, s', w') /\ length es = length cs /\ P s w s' w'.
Proof.
  intros Hrefl Htrans Hstep. induction cs as [| c cs IH]; intros s w; simpl.
  - exists [], s, w. auto.
  - destruct (exec_returns c s w) as (e & s1 & w1 & He). rewrite He.
    destruct (IH s1 w1) as (es & s2 & w2 & -> & Hlen & HP).
    exists (e :: es), s2, w2. simpl. repeat split; [by rewrite Hlen |].
    eapply Htrans; [by eapply Hstep | done].
Qed.

(** ** What holds on a connection, whatever the engine calls *)

(** X1. Declaring a sender does not discard recipients: after a sender
    declaration, recipient declarations [tos] and a second sender
    declaration, the session holds the recipients it had before followed by
    [tos] in order (duplicates kept), and the second sender. *)
Theorem recipients_accumulate (s : Session) (first second : string) (tos : list string) :
  recipients (fst (Mail (transaction s first tos) second)) = recipients s ++ tos
  /\ from (fst (Mail (transaction s first tos) second)) = second
  /\ snd (Mail (transaction s first tos) second) = None
  /\ length (recipients (transaction s first tos))
     = (length (recipients s) + length tos)%nat.
Proof.
  destruct (transaction_fields s first tos) as (_ & _ & _ & Hr & _).
  unfold Mail; cbn [fst snd recipients from].
  rewrite Hr, length_app. done.
Qed.

(** X2. When a sequence of callbacks on a session has completed, there is
    one reply per callback and the session is still with the backend and
    the connection it was created with. *)
Theorem run_keeps_backend
  (cs : list Command) (s : Session) (w : World)
  (es : list (option smtp.SMTPError)) (s' : Session) (w' : World) :
  run cs s w = Some (es, s', w') ->
  length es = length cs
  /\ backend s' = backend s
  /\ conn s' = conn s.
Proof.
  intros Hdone.
  destruct (run_invariant (fun s _ s' _ => backend s' = backend s /\ conn s' = conn s))
    with (cs := cs) (s := s) (w := w) as (es1 & s1 & w1 & Hrun & Hlen & HP).
  - done.
  - intros ? ? ? ? ? ? [-> ->] [-> ->]. done.
  - intros c s0 w0 e s2 w2 He. apply exec_cases in He. tauto.
  - rewrite Hrun in Hdone. injection Hdone as <- <- <-. tauto.
Qed.

(** A sender, a recipient, a one-byte body that is sent, then a [Reset]. *)
Lemma run_keeps_backend_witness :
  length [None; None; None; @None smtp.SMTPError] = length sample_callbacks
  /\ backend (mkSession (sample_backend None) (smtp.mkConn 1) "" [] None)
     = backend (fst (NewSession (sample_backend None) (smtp.mkConn 1)))
  /\ conn (mkSession (sample_backend None) (smtp.mkConn 1) "" [] None)
     = conn (fst (NewSession (sample_backend None) (smtp.mkConn 1))).
Proof.
  apply (run_keeps_backend sample_callbacks
           (fst (NewSession (sample_backend None) (smtp.mkConn 1))) sample_world
           [None; None; None; None]
           (mkSession (sample_backend None) (smtp.mkConn 1) "" [] None)
           (mkWorld 1 ∅ 0
              [LogSending "a@example.com" ["b@example.com"] "config set: campaign-1"]
              [ses.mkSendRawEmailInput (Some "campaign-1") (Some "a@example.com")
                 ["b@example.com"] (Some (types.mkRawMessage (Some ["x"%byte])))])).
  vm_compute. reflexivity.
Defined.

(** X3. Across any sequence of callbacks the SES API keeps the requests it
    had received and receives only requests that carry the configuration
    set name of the session's backend, a source, at least one destination
    and a body of at most 40,000,000 bytes. *)
Theorem run_requests_wellformed (cs : list Command) (s : Session) (w : World) :
  exists es s' w' new,
    run cs s w = Some (es, s', w')
    /\ received w' = received w ++ new
    /\ Forall (request_of_backend (backend s)) new.
Proof.
  destruct (run_invariant
              (fun s w s' w' =>
                 backend s' = backend s
                 /\ exists new, received w' = received w ++ new
                                /\ Forall (request_of_backend (backend s)) new))
    with (cs := cs) (s := s) (w := w) as (es & s' & w' & Hrun & _ & _ & new & Hnew & Hall).
  - intros s0 w0. split; [done |]. exists []. by rewrite app_nil_r.
  - intros s0 w0 s1 w1 s2 w2 (Hb1 & n1 & Hn1 & Hf1) (Hb2 & n2 & Hn2 & Hf2).
    split; [congruence |]. exists (n1 ++ n2).
    rewrite Hn2, Hn1, (assoc_L (++)). split; [done |].
    apply Forall_app. split; [done |]. by rewrite <- Hb1.
  - intros c s0 w0 e s1 w1 He. apply exec_cases in He.
    destruct He as (Hb & _ & [-> | (r & d & _ & Hspec & _ & _ & ->)]).
    { split; [done |]. exists []. by rewrite app_nil_r. }
    split; [done |].
    destruct Hspec as [Hnil | e' _ Herr | _ _ Hbig | e' Hrcpt _ Hfit input _
                      | Hrcpt _ Hfit input _];
      cbn [world received emailError_Inc log_Printf sesError_Inc emailSent_Inc].
    + exists []. by rewrite app_nil_r.
    + exists []. by rewrite app_nil_r.
    + exists []. by rewrite app_nil_r.
    + exists [input]. split; [done |]. apply Forall_singleton.
      unfold request_of_backend, input; cbn. eauto 10.
    + exists [input]. split; [done |]. apply Forall_singleton.
      unfold request_of_backend, input; cbn. eauto 10.
  - by exists es, s', w', new.
Qed.

(** X4. Across any sequence of callbacks every call of [SendRawEmail] on
    the client is counted once: the number of calls made grows by as much
    as [emailSent] and [sesError] grow together. ([received] holds one
    entry per call; what the client puts on the wire for a call, retries
    included, is its own business.) *)
Theorem run_send_accounting (cs : list Command) (s : Session) (w : World) :
  exists es s' w',
    run cs s w = Some (es, s', w')
    /\ (length (received w') + emailSent w + sesError w
        = length (received w) + emailSent w' + sesError w')%nat.
Proof.
  destruct (run_invariant
              (fun _ w _ w' =>
                 (length (received w') + emailSent w + sesError w
                  = length (received w) + emailSent w' + sesError w')%nat))
    with (cs := cs) (s := s) (w := w) as (es & s' & w' & Hrun & _ & HP).
  - done.
  - intros; lia.
  - intros c s0 w0 e s1 w1 He. apply exec_cases in He.
    destruct He as (_ & _ & [-> | (r & d & _ & Hspec & _ & _ & ->)]); [done |].
    destruct Hspec; cbn; rewrite ?length_app; simpl; lia.
  - by exists es, s', w'.
Qed.

(** X5. Across any sequence of callbacks [sesError] and the [emailError]
    child for ses error grow by the same amount. *)
Theorem run_sesError_tracks_label (cs : list Command) (s : Session) (w : World) :
  exists es s' w',
    run cs s w = Some (es, s', w')
    /\ (sesError w' + emailError_value w (label SendError)
        = sesError w + emailError_value w' (label SendError))%nat.
Proof.
  destruct (run_invariant
              (fun _ w _ w' =>
                 (sesError w' + emailError_value w (label SendError)
                  = sesError w + emailError_value w' (label SendError))%nat))
    with (cs := cs) (s := s) (w := w) as (es & s' & w' & Hrun & _ & HP).
  - done.
  - intros; lia.
  - intros c s0 w0 e s1 w1 He. apply exec_cases in He.
    destruct He as (_ & _ & [-> | (r & d & _ & Hspec & _ & _ & ->)]); [done |].
    destruct Hspec; cbn [world sesError sesError_Inc emailSent_Inc log_Printf].
    + rewrite emailError_Inc_other by done. done.
    + rewrite emailError_Inc_other by done. done.
    + unfold emailError_value at 2, emailError_Inc, log_Printf; cbn.
      rewrite lookup_insert_ne by done. done.
    + unfold emailError_value at 2, emailError_Inc, log_Printf; cbn.
      rewrite lookup_insert_eq. unfold emailError_value. simpl. lia.
    + done.
  - by exists es, s', w'.
Qed.

(** X6. Across any sequence of callbacks no [emailError] child decreases,
    and only the children for the four labels of [Data] are ever touched:
    the child of any other label value stays as it was, absent if it was
    absent. *)
Theorem run_failure_labels (cs : list Command) (s : Session) (w : World) :
  exists es s' w',
    run cs s w = Some (es, s', w')
    /\ (forall type, (emailError_value w type <= emailError_value w' type)%nat)
    /\ (forall type, type ∉ failure_labels -> emailError w' !! type = emailError w !! type).
Proof.
  destruct (run_invariant
              (fun _ w _ w' =>
                 (forall type, (emailError_value w type <= emailError_value w' type)%nat)
                 /\ (forall type, type ∉ failure_labels ->
                                  emailError w' !! type = emailError w !! type)))
    with (cs := cs) (s := s) (w := w) as (es & s' & w' & Hrun & _ & HP).
  - done.
  - intros ? ? ? ? ? ? [H1 H2] [H3 H4]. split.
    + intros type. specialize (H1 type). specialize (H3 type). lia.
    + intros type Hn. rewrite H4, H2; done.
  - intros c s0 w0 e s1 w1 He. apply exec_cases in He.
    destruct He as (_ & _ & [-> | (r & d & _ & Hspec & _ & _ & ->)]); [done |].
    assert (Hinc : forall l w1,
               l ∈ failure_labels ->
               (forall type, (emailError_value w1 type
                              <= emailError_value (emailError_Inc l w1) type)%nat)
               /\ (forall type, type ∉ failure_labels ->
                                emailError (emailError_Inc l w1) !! type
                                = emailError w1 !! type)).
    { intros l w2 Hl. split.
      - intros type. destruct (decide (l = type)) as [-> | Hne].
        + rewrite emailError_Inc_same. lia.
        + by rewrite emailError_Inc_other.
      - intros type Hn. unfold emailError_Inc; cbn.
        rewrite lookup_insert_ne; [done |]. intros ->. done. }
    destruct Hspec; cbn [world].
    + apply Hinc. apply list_elem_of_In; simpl; tauto.
    + apply Hinc. apply list_elem_of_In; simpl; tauto.
    + apply (Hinc "minimum message size exceed" w0). apply list_elem_of_In; simpl; tauto.
    + apply (Hinc "ses error"
               (log_Printf (LogSesError e0)
                  (mkWorld (emailSent w0) (emailError w0) (sesError w0) (logged w0)
                     (received w0 ++ [input])))).
      apply list_elem_of_In; simpl; tauto.
    + done.
  - by exists es, s', w'.
Qed.

(** X7. Whatever callbacks ran on a session, a [Reset] after them leaves
    the session [NewSession] makes for the same backend and connection. *)
Theorem reset_after_run (cs : list Command) (s : Session) (w : World) :
  exists es s' w',
    run (cs ++ [CmdReset]) s w = Some (es, s', w')
    /\ s' = fst (NewSession (backend s) (conn s)).
Proof.
  destruct (run_invariant (fun s _ s' _ => backend s' = backend s /\ conn s' = conn s))
    with (cs := cs) (s := s) (w := w) as (es & s' & w' & Hrun & _ & Hb & Hc).
  - done.
  - intros ? ? ? ? ? ? [-> ->] [-> ->]. done.
  - intros c s0 w0 e s1 w1 He. apply exec_cases in He. tauto.
  - rewrite run_app, Hrun. simpl.
    do 3 eexists. split; [reflexivity |]. unfold Reset. by rewrite Hb, Hc.
Qed.

(** X17. [AuthPlain] and [Logout] accept whatever they are given and change
    nothing: a sequence of callbacks leaves the same session and the same
    package-level state as the sequence without its [AuthPlain] and
    [Logout] calls, and each of those calls is answered without an error. *)
Theorem auth_and_logout_are_noops (cs : list Command) (s : Session) (w : World) :
  exists es es' s' w',
    run cs s w = Some (es, s', w')
    /\ run (List.filter changes_state cs) s w = Some (es', s', w')
    /\ (forall i c, cs !! i = Some c -> changes_state c = false -> es !! i = Some None).
Proof.
  revert s w. induction cs as [| c cs IH]; intros s w.
  - exists [], [], s, w. repeat split. intros i c Hi. by rewrite lookup_nil in Hi.
  - cbn [run List.filter].
    destruct (exec_returns c s w) as (e & s1 & w1 & He). rewrite He.
    destruct (IH s1 w1) as (es & es' & s' & w' & Hrun & Hrun' & Hnone).
    rewrite Hrun.
    destruct (changes_state c) eqn:Hc.
    + cbn [run]. rewrite He, Hrun'.
      exists (e :: es), (e :: es'), s', w'. repeat split.
      intros [| i] c' Hi Hc'; simpl in Hi.
      * injection Hi as <-. congruence.
      * simpl. by eapply Hnone.
    + assert (Hsame : e = None /\ s1 = s /\ w1 = w).
      { destruct c; try discriminate Hc; simpl in He; by injection He as <- <- <-. }
      destruct Hsame as (-> & -> & ->).
      exists (None :: es), es', s', w'. repeat split; [done |].
      intros [| i] c' Hi Hc'; simpl in Hi; simpl; [done | by eapply Hnone].
Qed.

(** ** More on [Data] *)

(** X8. What [Data] returns, and what it leaves in the session, in the
    package-level state and unread in the reader, does not depend on how
    many bytes the reader hands out per call. *)
Theorem data_chunking_irrelevant (s : Session) (r : BodyReader) (w : World) (b : nat) :
  exists d d',
    Data s r w = Some d
    /\ Data s (with_burst b r) w = Some d'
    /\ returned d' = returned d
    /\ session d' = session d
    /\ world d' = world d
    /\ unread (reader d') = unread (reader d).
Proof.
  destruct (Data_spec s r w) as (d & Hd & Hspec).
  destruct (Data_spec s (with_burst b r) w) as (d' & Hd' & Hspec').
  exists d, d'. split; [done |]. split; [done |].
  assert (Herr : limited_err (with_burst b r) (SesSizeLimit + 1)
                 = limited_err r (SesSizeLimit + 1)) by reflexivity.
  assert (Htaken : taken (with_burst b r) = taken r) by reflexivity.
  clear Hd Hd'.
  destruct Hspec as [Hnil | e Hr He | Hr He Hbig | e Hr Heof Hfit input Hsend
                    | Hr Heof Hfit input Hsend];
    destruct Hspec' as [Hnil' | e' Hr' He' | Hr' He' Hbig' | e' Hr' Heof' Hfit' input' Hsend'
                       | Hr' Heof' Hfit' input' Hsend'];
    cbn [with_burst unread closing] in *;
    try contradiction; try congruence; try lia;
    try (rewrite limited_err_EOF in He by done; discriminate);
    try (rewrite Herr, limited_err_EOF in He' by done; discriminate);
    cbn [returned session world reader advance unread with_burst];
    try rewrite Htaken; try done.
  - subst input input'. rewrite Hsend in Hsend'. injection Hsend' as <-. done.
  - subst input input'. congruence.
  - subst input input'. congruence.
Qed.

(** X9. With recipients declared, [Data] takes the first 40,000,001 bytes
    from the reader, or all of them when there are fewer, whatever the
    outcome: a body within the limit is read to its end, and what follows
    byte 40,000,001 of a larger one is left unread. *)
Theorem data_reader_position (s : Session) (r : BodyReader) (w : World) :
  recipients s <> [] ->
  exists d,
    Data s r w = Some d
    /\ unread (reader d) = drop (Z.to_nat (SesSizeLimit + 1)) (unread r)
    /\ closing (reader d) = closing r
    /\ (len (unread r) <= SesSizeLimit -> unread (reader d) = []).
Proof.
  intros Hrcpt.
  destruct (Data_spec s r w) as (d & Hd & Hspec).
  exists d. split; [done |].
  assert (Hdrop : drop (taken r) (unread r) = drop (Z.to_nat (SesSizeLimit + 1)) (unread r)).
  { unfold taken, len.
    destruct (Z.le_gt_cases (SesSizeLimit + 1) (Z.of_nat (length (unread r)))).
    - by rewrite Z.min_l.
    - rewrite Z.min_r, Nat2Z.id by lia. rewrite !drop_ge; [done | lia | lia]. }
  assert (Hend : len (unread r) <= SesSizeLimit -> drop (taken r) (unread r) = []).
  { intros Hfit. rewrite taken_all by done. by apply drop_ge. }
  destruct Hspec; try contradiction; cbn [reader advance unread closing]; auto.
Qed.

(** A body of nine bytes, one recipient declared. *)
Lemma data_reader_position_witness :
  exists d,
    Data (sample_session None ["b@example.com"]) (sample_reader (body_of_size 9) EOF)
         sample_world = Some d
    /\ unread (reader d)
       = drop (Z.to_nat (SesSizeLimit + 1)) (unread (sample_reader (body_of_size 9) EOF))
    /\ closing (reader d) = closing (sample_reader (body_of_size 9) EOF)
    /\ (len (unread (sample_reader (body_of_size 9) EOF)) <= SesSizeLimit ->
        unread (reader d) = []).
Proof.
  apply (data_reader_position (sample_session None ["b@example.com"])
           (sample_reader (body_of_size 9) EOF) sample_world).
  discriminate.
Defined.

(** X10. When [Data] rejects a body for its size it writes one log line,
    and the size in it is always 40,000,001, the number of bytes read, not
    the size of the body. *)
Theorem data_size_log_line (s : Session) (r : BodyReader) (w : World) :
  recipients s <> [] ->
  40000000 < len (unread r) ->
  closing r = EOF \/ 40000001 < len (unread r) ->
  exists d,
    Data s r w = Some d
    /\ logged (world d) = logged w ++ [LogSizeExceeded 40000001 40000000].
Proof.
  intros Hrcpt Hbig Hseen.
  assert (Herr : limited_err r (SesSizeLimit + 1) = None).
  { destruct Hseen as [Heof | Hbeyond].
    - by apply limited_err_EOF.
    - apply limited_err_beyond. unfold SesSizeLimit. lia. }
  destruct (Data_spec s r w) as (d & Hd & Hspec).
  exists d. split; [done |].
  destruct Hspec as [Hnil | e _ He | _ _ _ | e _ _ Hfit input _ | _ _ Hfit input _];
    try contradiction; try congruence; try (unfold SesSizeLimit in Hfit; lia).
  reflexivity.
Qed.

(** A body of 50,000,000 bytes, one recipient declared. *)
Lemma data_size_log_line_witness :
  exists d,
    Data (sample_session None ["b@example.com"]) (sample_reader (body_of_size 50000000) EOF)
         sample_world = Some d
    /\ logged (world d) = logged sample_world ++ [LogSizeExceeded 40000001 40000000].
Proof.
  apply (data_size_log_line (sample_session None ["b@example.com"])
           (sample_reader (body_of_size 50000000) EOF) sample_world).
  - discriminate.
  - change (40000000 < len (body_of_size 50000000)). rewrite len_body_of_size; lia.
  - left. reflexivity.
Defined.

(** X11. [Data] does not end the transaction: called again on the session
    it left, with recipients declared and no [Reset] in between, it sends
    the new body to the same recipients from the same sender. *)
Theorem data_twice_resends
  (s : Session) (r1 r2 : BodyReader) (w : World) (d1 : DataResult) :
  Data s r1 w = Some d1 ->
  recipients s <> [] ->
  closing r2 = EOF ->
  len (unread r2) <= SesSizeLimit ->
  exists d2,
    Data (session d1) r2 (world d1) = Some d2
    /\ received (world d2)
       = received (world d1)
         ++ [ses.mkSendRawEmailInput (configSetName (backend s)) (Some (from s))
               (recipients s) (Some (types.mkRawMessage (Some (unread r2))))].
Proof.
  intros Hd1 Hrcpt Heof Hfit. apply Data_inv in Hd1.
  assert (Hsame : backend (session d1) = backend s /\ from (session d1) = from s
                  /\ recipients (session d1) = recipients s)
    by (by destruct Hd1).
  destruct Hsame as (Hb & Hf & Hr).
  destruct (Data_spec (session d1) r2 (world d1)) as (d2 & Hd2 & Hspec).
  exists d2. split; [done |].
  destruct Hspec as [Hnil | e _ He | _ _ Hbig | e _ _ _ input _ | _ _ _ input _].
  - congruence.
  - rewrite limited_err_EOF in He by done. discriminate.
  - lia.
  - cbn [world received emailError_Inc log_Printf sesError_Inc].
    subst input. by rewrite Hb, Hf, Hr.
  - cbn [world received emailSent_Inc log_Printf].
    subst input. by rewrite Hb, Hf, Hr.
Qed.

(** A failed send of a one-byte body, then a second body on the same session. *)
Lemma data_twice_resends_witness :
  exists d2,
    Data (session sample_send_failure) (sample_reader (body_of_size 5) EOF)
         (world sample_send_failure) = Some d2
    /\ received (world d2)
       = received (world sample_send_failure)
         ++ [ses.mkSendRawEmailInput
               (configSetName (backend (sample_session (Some (Err "throttled"))
                                          ["b@example.com"])))
               (Some (from (sample_session (Some (Err "throttled")) ["b@example.com"])))
               (recipients (sample_session (Some (Err "throttled")) ["b@example.com"]))
               (Some (types.mkRawMessage
                        (Some (unread (sample_reader (body_of_size 5) EOF)))))].
Proof.
  apply (data_twice_resends (sample_session (Some (Err "throttled")) ["b@example.com"])
           (sample_reader ["x"%byte] EOF) (sample_reader (body_of_size 5) EOF)
           sample_world sample_send_failure).
  - vm_compute. reflexivity.
  - discriminate.
  - reflexivity.
  - vm_compute. discriminate.
Defined.

(** X12. With recipients declared, any complete body of at most 40,000,000
    bytes, the empty body included, is read to its end, stored in the
    session and sent as it is in one request; [Data] returns nil exactly
    when the service answers that request without an error. *)
Theorem data_sends_body_within_limit (s : Session) (r : BodyReader) (w : World) :
  recipients s <> [] ->
  closing r = EOF ->
  len (unread r) <= SesSizeLimit ->
  exists d,
    Data s r w = Some d
    /\ received (world d)
       = received w
         ++ [ses.mkSendRawEmailInput (configSetName (backend s)) (Some (from s))
               (recipients s) (Some (types.mkRawMessage (Some (unread r))))]
    /\ data (session d) = Some (unread r)
    /\ unread (reader d) = []
    /\ (returned d = None
        <-> ses.SendRawEmail (sesClient (backend s)) (received w)
              (ses.mkSendRawEmailInput (configSetName (backend s)) (Some (from s))
                 (recipients s) (Some (types.mkRawMessage (Some (unread r)))))
            = None).
Proof.
  intros Hrcpt Heof Hfit.
  destruct (Data_spec s r w) as (d & Hd & Hspec).
  exists d. split; [done |].
  assert (Hend : drop (taken r) (unread r) = [])
    by (rewrite taken_all by done; by apply drop_ge).
  destruct Hspec as [Hnil | e _ He | _ _ Hbig | e _ _ _ input Hsend | _ _ _ input Hsend].
  - contradiction.
  - rewrite limited_err_EOF in He by done. discriminate.
  - lia.
  - subst input. cbn [world received session data reader advance unread returned
                      emailError_Inc log_Printf sesError_Inc].
    repeat split; try done. rewrite Hsend. discriminate.
  - subst input. cbn [world received session data reader advance unread returned
                      emailSent_Inc log_Printf].
    repeat split; done.
Qed.

(** The empty body, one recipient declared. *)
Lemma data_sends_body_within_limit_witness :
  exists d,
    Data (sample_session None ["b@example.com"]) (sample_reader [] EOF) sample_world = Some d
    /\ received (world d)
       = received sample_world
         ++ [ses.mkSendRawEmailInput
               (configSetName (backend (sample_session None ["b@example.com"])))
               (Some (from (sample_session None ["b@example.com"])))
               (recipients (sample_session None ["b@example.com"]))
               (Some (types.mkRawMessage (Some (unread (sample_reader [] EOF)))))]
    /\ data (session d) = Some (unread (sample_reader [] EOF))
    /\ unread (reader d) = []
    /\ (returned d = None
        <-> ses.SendRawEmail (sesClient (backend (sample_session None ["b@example.com"])))
              (received sample_world)
              (ses.mkSendRawEmailInput
                 (configSetName (backend (sample_session None ["b@example.com"])))
                 (Some (from (sample_session None ["b@example.com"])))
                 (recipients (sample_session None ["b@example.com"]))
                 (Some (types.mkRawMessage (Some (unread (sample_reader [] EOF))))))
            = None).
Proof.
  apply (data_sends_body_within_limit (sample_session None ["b@example.com"])
           (sample_reader [] EOF) sample_world).
  - discriminate.
  - reflexivity.
  - vm_compute. discriminate.
Defined.

(** ** More on startup *)

Section MoreStartupFacts.

Variable environ : gmap string string.
Variable config_LoadDefaultConfig : result aws.Config.
Variable sts_GetCallerIdentity : aws.Config -> result aws.CallerIdentity.
Variable service_SendRawEmail :
  aws.Config -> list ses.SendRawEmailInput -> ses.SendRawEmailInput -> option error.
Variable service_DescribeConfigurationSet : aws.Config -> string -> option error.

(** What [main] has gone through when it is listening. *)
Lemma main_listening_inv (f : Flags) (w w' : World) (run : Running) :
  main environ config_LoadDefaultConfig sts_GetCallerIdentity
       service_SendRawEmail service_DescribeConfigurationSet f w = (Listening run, w') ->
  exists client w1,
    makeSesClient environ config_LoadDefaultConfig sts_GetCallerIdentity
                  service_SendRawEmail service_DescribeConfigurationSet
                  (if enableHealthCheck f
                   then log_Printf (LogHealthCheck (healthCheckBind f)) w else w)
    = (Ok client, w1)
    /\ (configurationSetName f <> "" ->
        validateConfigurationSet client (configurationSetName f) = None)
    /\ (flag_Arg0 f = "" -> (length (args f) <= 1)%nat)
    /\ run = mkRunning
               (mkBackend client
                  (if String.eqb (configurationSetName f) "" then None
                   else Some (configurationSetName f)))
               (if String.eqb (flag_Arg0 f) "" then DefaultAddr else flag_Arg0 f)
               "localhost" true
               (if enableHealthCheck f then Some (healthCheckBind f) else None)
               (if enablePrometheus f then Some (prometheusBind f) else None).
Proof.
  unfold main. intros H.
  destruct (showVersion f); [discriminate |].
  destruct (makeSesClient _ _ _ _ _ _) as [[client | e] w1]; [| discriminate].
  exists client, w1. split; [reflexivity |].
  destruct (String.eqb_spec (configurationSetName f) "") as [Hname | Hname];
    cbn [negb] in H.
  - destruct (String.eqb_spec (flag_Arg0 f) "") as [Harg | Harg]; cbn [negb] in H.
    + destruct (Z.ltb_spec 1 (len (args f))) as [Hmany | Hfew]; [discriminate |].
      injection H as <- <-. repeat split; [done | unfold len in Hfew; lia].
    + injection H as <- <-. repeat split; done.
  - destruct (validateConfigurationSet client (configurationSetName f)) eqn:Hval;
      [discriminate |].
    destruct (String.eqb_spec (flag_Arg0 f) "") as [Harg | Harg]; cbn [negb] in H.
    + destruct (Z.ltb_spec 1 (len (args f))) as [Hmany | Hfew]; [discriminate |].
      injection H as <- <-. repeat split; [unfold len in Hfew; lia].
    + injection H as <- <-. repeat split; done.
Qed.

End MoreStartupFacts.

(** X13. When [main] is listening and its backend carries a configuration
    set name, that name is the non-empty value of the flag, and the
    existence check on it, made with the client the backend sends with,
    returned no error. *)
Theorem main_listens_only_validated
  (environ : gmap string string)
  (config_LoadDefaultConfig : result aws.Config)
  (sts_GetCallerIdentity : aws.Config -> result aws.CallerIdentity)
  (service_SendRawEmail :
     aws.Config -> list ses.SendRawEmailInput -> ses.SendRawEmailInput -> option error)
  (service_DescribeConfigurationSet : aws.Config -> string -> option error)
  (f : Flags) (w w' : World) (run : Running) (name : string) :
  main environ config_LoadDefaultConfig sts_GetCallerIdentity
       service_SendRawEmail service_DescribeConfigurationSet f w = (Listening run, w') ->
  configSetName (server_Backend run) = Some name ->
  name = configurationSetName f
  /\ name <> ""
  /\ validateConfigurationSet (sesClient (server_Backend run)) name = None.
Proof.
  intros Hmain Hname.
  apply main_listening_inv in Hmain as (client & w1 & _ & Hval & _ & ->).
  cbn [server_Backend configSetName sesClient] in *.
  destruct (String.eqb_spec (configurationSetName f) "") as [E | E]; [discriminate |].
  injection Hname as <-. auto.
Qed.

(** Started with the flag set to campaign-1 and a service that knows the set. *)
Lemma main_listens_only_validated_witness :
  "campaign-1" = configurationSetName sample_flags
  /\ "campaign-1" <> ""
  /\ validateConfigurationSet
       (sesClient (server_Backend
                     (mkRunning (mkBackend (sample_client None) (Some "campaign-1"))
                        ":2500" "localhost" true None None)))
       "campaign-1" = None.
Proof.
  apply (main_listens_only_validated ∅ (Ok sample_config)
           (fun _ => Failed (Err "no identity"))
           (fun _ _ _ => None) (fun _ _ => None) sample_flags sample_world
           (log_Printf (LogConfigSetValidated "campaign-1")
              (log_Printf (LogIdentityWarning (Err "no identity")) sample_world))
           (mkRunning (mkBackend (sample_client None) (Some "campaign-1"))
              ":2500" "localhost" true None None)
           "campaign-1").
  - reflexivity.
  - reflexivity.
Defined.

(** X14. When [main] is listening, the SMTP server has the first positional
    argument as its address, or :2500 when that argument is missing or
    empty; in that case there is at most one positional argument, while
    after a non-empty first argument any further ones are accepted and
    ignored. The domain is localhost and plain authentication without TLS
    is allowed. *)
Theorem main_listen_address
  (environ : gmap string string)
  (config_LoadDefaultConfig : result aws.Config)
  (sts_GetCallerIdentity : aws.Config -> result aws.CallerIdentity)
  (service_SendRawEmail :
     aws.Config -> list ses.SendRawEmailInput -> ses.SendRawEmailInput -> option error)
  (service_DescribeConfigurationSet : aws.Config -> string -> option error)
  (f : Flags) (w w' : World) (run : Running) :
  main environ config_LoadDefaultConfig sts_GetCallerIdentity
       service_SendRawEmail service_DescribeConfigurationSet f w = (Listening run, w') ->
  server_Addr run = (if String.eqb (flag_Arg0 f) "" then ":2500" else flag_Arg0 f)
  /\ (flag_Arg0 f = "" -> (length (args f) <= 1)%nat)
  /\ server_Domain run = "localhost"
  /\ server_AllowInsecureAuth run = true
  /\ (forall more w0,
        flag_Arg0 f <> "" ->
        main environ config_LoadDefaultConfig sts_GetCallerIdentity
             service_SendRawEmail service_DescribeConfigurationSet
             (mkFlags (enablePrometheus f) (prometheusBind f) (showVersion f)
                (configurationSetName f) (enableHealthCheck f) (healthCheckBind f)
                (args f ++ more)) w0
        = main environ config_LoadDefaultConfig sts_GetCallerIdentity
               service_SendRawEmail service_DescribeConfigurationSet f w0).
Proof.
  intros Hmain.
  apply main_listening_inv in Hmain as (client & w1 & _ & _ & Hargs & ->).
  cbn [server_Addr server_Domain server_AllowInsecureAuth].
  repeat split; [done |].
  intros more w0 Harg.
  assert (Harg0 : forall g, args g = args f ++ more -> flag_Arg0 g = flag_Arg0 f).
  { intros g Hg. unfold flag_Arg0 in *. rewrite Hg.
    destruct (args f); [done | reflexivity]. }
  assert (Hg : flag_Arg0 (mkFlags (enablePrometheus f) (prometheusBind f) (showVersion f)
                            (configurationSetName f) (enableHealthCheck f)
                            (healthCheckBind f) (args f ++ more))
               = flag_Arg0 f) by (apply Harg0; reflexivity).
  unfold main.
  cbn [showVersion enableHealthCheck healthCheckBind configurationSetName
       enablePrometheus prometheusBind].
  rewrite Hg.
  destruct (String.eqb_spec (flag_Arg0 f) "") as [E | E]; [done |].
  reflexivity.
Qed.

(** Started with the positional arguments 127.0.0.1:25 and one more. *)
Lemma main_listen_address_witness :
  server_Addr (mkRunning (mkBackend (sample_client None) (Some "campaign-1"))
                 "127.0.0.1:25" "localhost" true None None)
  = (if String.eqb (flag_Arg0 sample_flags_two_args) "" then ":2500"
     else flag_Arg0 sample_flags_two_args)
  /\ (flag_Arg0 sample_flags_two_args = "" ->
      (length (args sample_flags_two_args) <= 1)%nat)
  /\ server_Domain (mkRunning (mkBackend (sample_client None) (Some "campaign-1"))
                      "127.0.0.1:25" "localhost" true None None) = "localhost"
  /\ server_AllowInsecureAuth
       (mkRunning (mkBackend (sample_client None) (Some "campaign-1"))
          "127.0.0.1:25" "localhost" true None None) = true
  /\ (forall more w0,
        flag_Arg0 sample_flags_two_args <> "" ->
        main ∅ (Ok sample_config) (fun _ => Failed (Err "no identity"))
             (fun _ _ _ => None) (fun _ _ => None)
             (mkFlags (enablePrometheus sample_flags_two_args)
                (prometheusBind sample_flags_two_args)
                (showVersion sample_flags_two_args)
                (configurationSetName sample_flags_two_args)
                (enableHealthCheck sample_flags_two_args)
                (healthCheckBind sample_flags_two_args)
                (args sample_flags_two_args ++ more)) w0
        = main ∅ (Ok sample_config) (fun _ => Failed (Err "no identity"))
               (fun _ _ _ => None) (fun _ _ => None) sample_flags_two_args w0).
Proof.
  apply (main_listen_address ∅ (Ok sample_config) (fun _ => Failed (Err "no identity"))
           (fun _ _ _ => None) (fun _ _ => None) sample_flags_two_args sample_world
           (log_Printf (LogConfigSetValidated "campaign-1")
              (log_Printf (LogIdentityWarning (Err "no identity")) sample_world))).
  reflexivity.
Defined.

(** X15. The identity lookup of [makeSesClient] is for the log only. For
    lookups that fail or that answer with an account and an ARN (the Go
    code dereferences both without a check, so an answer lacking one is not
    covered), the client returned (or the error) is the same whichever of
    these the lookup answers, no counter and no request is touched, and
    when the configuration loads exactly one line is logged. *)
Theorem identity_lookup_only_logs
  (environ : gmap string string)
  (config_LoadDefaultConfig : result aws.Config)
  (lookup lookup' : aws.Config -> result aws.CallerIdentity)
  (service_SendRawEmail :
     aws.Config -> list ses.SendRawEmailInput -> ses.SendRawEmailInput -> option error)
  (service_DescribeConfigurationSet : aws.Config -> string -> option error)
  (w : World) :
  fst (makeSesClient environ config_LoadDefaultConfig lookup
         service_SendRawEmail service_DescribeConfigurationSet w)
  = fst (makeSesClient environ config_LoadDefaultConfig lookup'
           service_SendRawEmail service_DescribeConfigurationSet w)
  /\ exists lines,
       snd (makeSesClient environ config_LoadDefaultConfig lookup
              service_SendRawEmail service_DescribeConfigurationSet w)
       = mkWorld (emailSent w) (emailError w) (sesError w) (logged w ++ lines) (received w)
       /\ length lines
          = match config_LoadDefaultConfig with Ok _ => 1%nat | Failed _ => 0%nat end.
Proof.
  unfold makeSesClient.
  destruct config_LoadDefaultConfig as [cfg | e]; cbn [fst snd].
  - split; [reflexivity |].
    destruct (lookup _) as [who | e]; eexists; (split; [reflexivity | reflexivity]).
  - split; [reflexivity |]. exists []. rewrite app_nil_r. by destruct w.
Qed.

(** X16. When [main] is listening, the default configuration had loaded,
    and the client of the backend was built from it: it calls the service
    with that configuration, its credentials replaced as the environment
    asks and its region kept, both to send and to check the configuration
    set. *)
Theorem main_client_from_loaded_config
  (environ : gmap string string)
  (config_LoadDefaultConfig : result aws.Config)
  (sts_GetCallerIdentity : aws.Config -> result aws.CallerIdentity)
  (service_SendRawEmail :
     aws.Config -> list ses.SendRawEmailInput -> ses.SendRawEmailInput -> option error)
  (service_DescribeConfigurationSet : aws.Config -> string -> option error)
  (f : Flags) (w w' : World) (run : Running) :
  main environ config_LoadDefaultConfig sts_GetCallerIdentity
       service_SendRawEmail service_DescribeConfigurationSet f w = (Listening run, w') ->
  exists cfg,
    config_LoadDefaultConfig = Ok cfg
    /\ aws.Region (ses.Options (sesClient (server_Backend run))) = aws.Region cfg
    /\ (os_Getenv environ "AWS_ROLE_ARN" = "" ->
        ses.Options (sesClient (server_Backend run)) = cfg)
    /\ ses.SendRawEmail (sesClient (server_Backend run))
       = service_SendRawEmail (ses.Options (sesClient (server_Backend run)))
    /\ ses.DescribeConfigurationSet (sesClient (server_Backend run))
       = service_DescribeConfigurationSet (ses.Options (sesClient (server_Backend run))).
Proof.
  intros Hmain.
  apply main_listening_inv in Hmain as (client & w1 & Hclient & _ & _ & ->).
  cbn [server_Backend sesClient].
  unfold makeSesClient in Hclient.
  destruct config_LoadDefaultConfig as [cfg | e]; [| discriminate].
  exists cfg. split; [reflexivity |].
  injection Hclient as <- _.
  cbn [ses_NewFromConfig ses.Options ses.SendRawEmail ses.DescribeConfigurationSet].
  destruct (String.eqb_spec (os_Getenv environ "AWS_ROLE_ARN") "") as [E | E];
    cbn [negb aws.Region]; repeat split; done.
Qed.

(** Started with a role to assume in the environment. *)
Lemma main_client_from_loaded_config_witness :
  exists cfg,
    Ok sample_config = Ok cfg
    /\ aws.Region (ses.Options (sesClient (server_Backend sample_running_with_role)))
       = aws.Region cfg
    /\ (os_Getenv {["AWS_ROLE_ARN" := "arn:aws:iam::1:role/relay"]} "AWS_ROLE_ARN" = "" ->
        ses.Options (sesClient (server_Backend sample_running_with_role)) = cfg)
    /\ ses.SendRawEmail (sesClient (server_Backend sample_running_with_role))
       = (fun _ _ _ => None)
           (ses.Options (sesClient (server_Backend sample_running_with_role)))
    /\ ses.DescribeConfigurationSet (sesClient (server_Backend sample_running_with_role))
       = (fun _ _ => None)
           (ses.Options (sesClient (server_Backend sample_running_with_role))).
Proof.
  apply (main_client_from_loaded_config
           {["AWS_ROLE_ARN" := "arn:aws:iam::1:role/relay"]}
           (Ok sample_config) (fun _ => Failed (Err "no identity"))
           (fun _ _ _ => None) (fun _ _ => None) sample_flags sample_world
           (log_Printf (LogConfigSetValidated "campaign-1")
              (log_Printf (LogIdentityWarning (Err "no identity")) sample_world))
           sample_running_with_role).
  vm_compute. reflexivity.
Defined.
